(** * Workflow engine: a shallow embedding of [src/workflows/workflow_engine.py]

    The development models the dependency-aware task scheduler of the
    repository ([TaskStatus], [Task], [Workflow], [WorkflowEngine]) and
    proves the properties its specification states about
    [execute_workflow]. *)

From Stdlib Require Import String List Bool Arith Lia ZArith.
From stdpp Require Import base gmap strings list fin_sets.
Import ListNotations.

Open Scope string_scope.
Set Warnings "-clear-no-such-hyp".

(** ** Python values *)

(** The values task actions return and contexts hold ([Any]).  [PyNone] is
    Python's [None]; a [dict] literal keeps its items in insertion order. *)
#[warnings="-register-all"]
Inductive pyval : Type :=
| PyNone
| PyBool (b : bool)
| PyInt (z : Z)
| PyStr (s : string)
| PyDict (items : list (string * pyval)).

(** A [Dict[str, V]]: unique keys, insertion order preserved. *)
Definition pydict (V : Type) : Type := list (string * V).

Section Dict.
Context {V : Type}.

(** [d.get(k)] *)
Fixpoint dict_get (k : string) (d : pydict V) : option V :=
  match d with
  | [] => None
  | (k', v) :: d' => if String.eqb k k' then Some v else dict_get k d'
  end.

(** [d[k] = v]: an existing key keeps its position, a new key is appended. *)
Fixpoint dict_set (k : string) (v : V) (d : pydict V) : pydict V :=
  match d with
  | [] => [(k, v)]
  | (k', v') :: d' =>
      if String.eqb k k' then (k', v) :: d' else (k', v') :: dict_set k v d'
  end.

(** [d.keys()] *)
Definition dict_keys (d : pydict V) : list string := map fst d.

(** In-place mutation of the object stored under [k] (the dictionary's
    structure is untouched). *)
Definition dict_alter (f : V -> V) (k : string) (d : pydict V) : pydict V :=
  map (fun kv => if String.eqb k (fst kv) then (fst kv, f (snd kv)) else kv) d.
End Dict.

(** ** Data model *)

Inductive TaskStatus : Type :=
| PENDING
| RUNNING
| COMPLETED
| FAILED
| SKIPPED.

(** [TaskStatus.value] *)
Definition TaskStatus_value (s : TaskStatus) : string :=
  match s with
  | PENDING => "pending"
  | RUNNING => "running"
  | COMPLETED => "completed"
  | FAILED => "failed"
  | SKIPPED => "skipped"
  end.

(** [status in [COMPLETED, FAILED, SKIPPED]] *)
Definition is_terminal (s : TaskStatus) : bool :=
  match s with
  | COMPLETED | FAILED | SKIPPED => true
  | PENDING | RUNNING => false
  end.

(** What a call [task.action(context)] does inside the [try] block: it
    returns a value, or it raises an [Exception] [e] whose [str(e)] is the
    carried message.  The context dictionary is shared by reference, so the
    call also yields the context as the action left it.  Calls that do not
    return, and exceptions that are not instances of [Exception]
    ([KeyboardInterrupt], [SystemExit]), which [except Exception] lets
    through, are outside the model. *)
Inductive action_outcome : Type :=
| Returns (v : pyval)
| Raises (msg : string).

Definition Action : Type := pydict pyval -> action_outcome * pydict pyval.

Record Task : Type := mkTask {
  name : string;
  action : Action;
  dependencies : list string;
  status : TaskStatus;
  result : pyval;
  error : option string
}.

(** The dataclass defaults: [status=PENDING], [result=None], [error=None]. *)
Definition new_Task (n : string) (a : Action) (deps : list string) : Task :=
  mkTask n a deps PENDING PyNone None.

Definition set_status (s : TaskStatus) (t : Task) : Task :=
  mkTask (name t) (action t) (dependencies t) s (result t) (error t).
Definition set_result (v : pyval) (t : Task) : Task :=
  mkTask (name t) (action t) (dependencies t) (status t) v (error t).
Definition set_error (e : string) (t : Task) : Task :=
  mkTask (name t) (action t) (dependencies t) (status t) (result t) (Some e).

Record Workflow : Type := mkWorkflow {
  wf_name : string;
  description : string;
  tasks : pydict Task
}.

(** [Workflow(name, description)] *)
Definition new_Workflow (n d : string) : Workflow := mkWorkflow n d [].

(** [Workflow.add_task]; [dependencies or []] maps both [None] and the empty
    list to the empty list. *)
Definition add_task (n : string) (a : Action) (deps : option (list string))
    (w : Workflow) : Workflow :=
  mkWorkflow (wf_name w) (description w)
    (dict_set n (new_Task n a (default [] deps)) (tasks w)).

(** [Workflow.get_task] *)
Definition get_task (n : string) (w : Workflow) : option Task :=
  dict_get n (tasks w).

(** Events sent to the logger. *)
Inductive event : Type :=
| InfoEngineInitialized
| InfoRegistered (wf : string)
| InfoExecutingWorkflow (wf : string)
| InfoExecutingTask (task : string)
| ErrorTaskFailed (task : string) (msg : string)
| InfoWorkflowCompleted (wf : string) (success_count total : nat).

Record WorkflowEngine : Type := mkEngine {
  workflows : gmap string Workflow
}.

(** [WorkflowEngine()] *)
Definition new_WorkflowEngine : WorkflowEngine * list event :=
  (mkEngine ∅, [InfoEngineInitialized]).

(** [WorkflowEngine.register_workflow] *)
Definition register_workflow (w : Workflow) (e : WorkflowEngine)
    : WorkflowEngine * list event :=
  (mkEngine (<[wf_name w := w]> (workflows e)), [InfoRegistered (wf_name w)]).

(** ** Execution *)

(** The variables [execute_workflow] works on: the workflow object (whose
    tasks are mutated in place), the [executed_tasks] set, the shared
    context and the events logged so far. *)
Record State : Type := mkState {
  workflow : Workflow;
  executed_tasks : gset string;
  context : pydict pyval;
  logged : list event
}.

Definition alter_task (f : Task -> Task) (n : string) (st : State) : State :=
  mkState
    (mkWorkflow (wf_name (workflow st)) (description (workflow st))
       (dict_alter f n (tasks (workflow st))))
    (executed_tasks st) (context st) (logged st).

Definition add_executed (n : string) (st : State) : State :=
  mkState (workflow st) ({[n]} ∪ executed_tasks st) (context st) (logged st).

Definition set_context (c : pydict pyval) (st : State) : State :=
  mkState (workflow st) (executed_tasks st) c (logged st).

Definition emit (e : event) (st : State) : State :=
  mkState (workflow st) (executed_tasks st) (context st) (logged st ++ [e])%list.

(** [all(dep in executed_tasks for dep in task.dependencies)] *)
Definition deps_met (task : Task) (st : State) : bool :=
  forallb (fun dep => bool_decide (dep ∈ executed_tasks st)) (dependencies task).

(** The state in which [task.action(context)] is called: the status is
    [RUNNING] and the task start has been logged. *)
Definition begin_task (task_name : string) (st : State) : State :=
  emit (InfoExecutingTask task_name) (alter_task (set_status RUNNING) task_name st).

(** The states the [try]/[except] statement passes through, one per
    assignment, in program order. *)
Definition try_states (task_name : string) (task : Task) (st : State) : list State :=
  let st1 := alter_task (set_status RUNNING) task_name st in
  let st2 := emit (InfoExecutingTask task_name) st1 in
  match action task (context st2) with
  | (Returns v, c) =>
      let st3 := alter_task (set_result v) task_name (set_context c st2) in
      let st4 := alter_task (set_status COMPLETED) task_name st3 in
      let st5 := add_executed task_name st4 in
      [st1; st2; st3; st4; st5]
  | (Raises msg, c) =>
      let st3 := alter_task (set_status FAILED) task_name (set_context c st2) in
      let st4 := alter_task (set_error msg) task_name st3 in
      let st5 := emit (ErrorTaskFailed task_name msg) st4 in
      let st6 := add_executed task_name st5 in
      [st1; st2; st3; st4; st5; st6]
  end.

(** The [try]/[except] statement as a state transformer. *)
Definition try_block (task_name : string) (task : Task) (st : State) : State :=
  let st2 := begin_task task_name st in
  match action task (context st2) with
  | (Returns v, c) =>
      add_executed task_name
        (alter_task (set_status COMPLETED) task_name
           (alter_task (set_result v) task_name (set_context c st2)))
  | (Raises msg, c) =>
      add_executed task_name
        (emit (ErrorTaskFailed task_name msg)
           (alter_task (set_error msg) task_name
              (alter_task (set_status FAILED) task_name (set_context c st2))))
  end.

(** One iteration of [for task_name, task in workflow.tasks.items()],
    threading [progress_made]. *)
Definition for_body (acc : State * bool) (task_name : string) : State * bool :=
  let '(st, progress_made) := acc in
  match dict_get task_name (tasks (workflow st)) with
  | None => acc
  | Some task =>
      if is_terminal (status task) then acc
      else if deps_met task st then (try_block task_name task st, true)
      else acc
  end.

(** A full scan of the task table (the [for] loop). *)
Definition scan (st : State) : State * bool :=
  fold_left for_body (dict_keys (tasks (workflow st))) (st, false).

(** [[name for name in workflow.tasks.keys() if name not in executed_tasks]] *)
Definition remaining (st : State) : list string :=
  List.filter (fun n => negb (bool_decide (n ∈ executed_tasks st)))
    (dict_keys (tasks (workflow st))).

Inductive exn : Type :=
| ValueError_not_found (workflow_name : string)
| RuntimeError_cannot_execute (remaining : list string).

(** How the [while] loop is left. *)
Inductive loop_exit : Type :=
| LoopDone
| LoopRaise (e : exn).

(** The [while len(executed_tasks) < len(workflow.tasks)] loop.  [fuel]
    bounds the number of iterations; [None] means the bound was hit. *)
Fixpoint while_loop (fuel : nat) (st : State) : option (State * loop_exit) :=
  match fuel with
  | O => None
  | S fuel' =>
      if Nat.ltb (size (executed_tasks st)) (length (tasks (workflow st))) then
        let '(st', progress_made) := scan st in
        if progress_made then while_loop fuel' st'
        else Some (st', LoopRaise (RuntimeError_cannot_execute (remaining st')))
      else Some (st, LoopDone)
  end.

Record ReportEntry : Type := mkEntry {
  entry_status : string;
  entry_result : pyval;
  entry_error : option string
}.

(** The dictionary comprehension that collects the results. *)
Definition collect_results (w : Workflow) : pydict ReportEntry :=
  map (fun kv => (fst kv,
         mkEntry (TaskStatus_value (status (snd kv))) (result (snd kv)) (error (snd kv))))
      (tasks w).

Definition success_count (w : Workflow) : nat :=
  length (List.filter (fun kv => match status (snd kv) with COMPLETED => true | _ => false end)
            (tasks w)).

Inductive call_result : Type :=
| Return (results : pydict ReportEntry)
| Raise (e : exn).

(** What a call leaves behind: the engine (its workflow objects mutated in
    place), the events it logged, and how it ended. *)
Record Outcome : Type := mkOutcome {
  engine_after : WorkflowEngine;
  events : list event;
  ended : call_result
}.

(** [WorkflowEngine.execute_workflow].  The registry entry stands for the
    workflow object, which the call mutates in place: whether the call
    returns or raises, [engine_after] holds the workflow as the loop left
    it.  One scan resolves a task or ends the call, so [S (length tasks)]
    iterations always suffice (see [execute_workflow_total]). *)
Definition execute_workflow (workflow_name : string)
    (ctx : option (pydict pyval)) (e : WorkflowEngine) : option Outcome :=
  match workflows e !! workflow_name with
  | None => Some (mkOutcome e [] (Raise (ValueError_not_found workflow_name)))
  | Some w =>
      let st0 := mkState w ∅ (default [] ctx) [InfoExecutingWorkflow workflow_name] in
      match while_loop (S (length (tasks w))) st0 with
      | None => None
      | Some (st, LoopRaise ex) =>
          Some (mkOutcome (mkEngine (<[workflow_name := workflow st]> (workflows e)))
                  (logged st) (Raise ex))
      | Some (st, LoopDone) =>
          let w' := workflow st in
          Some (mkOutcome (mkEngine (<[workflow_name := w']> (workflows e)))
                  (logged st ++ [InfoWorkflowCompleted workflow_name
                                   (success_count w') (length (tasks w'))])%list
                  (Return (collect_results w')))
      end
  end.

(** ** The order-processing example of [examples/example_usage.py] *)

Definition validate_order : Action :=
  fun c => (Returns (PyDict [("valid", PyBool true)]), c).
Definition process_payment : Action :=
  fun c => (Returns (PyDict [("payment_id", PyStr "pay_123")]), c).
Definition fulfill_order : Action :=
  fun c => (Returns (PyDict [("shipped", PyBool true)]), c).

Definition order_processing : Workflow :=
  add_task "fulfill" fulfill_order (Some ["payment"])
    (add_task "payment" process_payment (Some ["validate"])
       (add_task "validate" validate_order (Some [])
          (new_Workflow "order_processing" "Process customer order workflow"))).

Definition order_engine : WorkflowEngine :=
  fst (register_workflow order_processing (fst new_WorkflowEngine)).

Definition invoked (evs : list event) : list string :=
  flat_map (fun e => match e with InfoExecutingTask n => [n] | _ => [] end) evs.

(** ** Every state a call passes through *)

Definition for_body_states (acc : State * bool) (task_name : string) : list State :=
  let '(st, _) := acc in
  match dict_get task_name (tasks (workflow st)) with
  | None => []
  | Some task =>
      if is_terminal (status task) then []
      else if deps_met task st then try_states task_name task st
      else []
  end.

Fixpoint scan_states (names : list string) (acc : State * bool) : list State :=
  match names with
  | [] => []
  | n :: names' => (for_body_states acc n ++ scan_states names' (for_body acc n))%list
  end.

Fixpoint while_states (fuel : nat) (st : State) : list State :=
  match fuel with
  | O => []
  | S fuel' =>
      if Nat.ltb (size (executed_tasks st)) (length (tasks (workflow st))) then
        (scan_states (dict_keys (tasks (workflow st))) (st, false)
         ++ (let '(st', progress_made) := scan st in
             if progress_made then while_states fuel' st' else []))%list
      else []
  end.

(** Every state [execute_workflow] passes through, from the state before
    the [while] loop on, one per assignment, in program order. *)
Definition execute_states (workflow_name : string) (ctx : option (pydict pyval))
    (e : WorkflowEngine) : list State :=
  match workflows e !! workflow_name with
  | None => []
  | Some w =>
      let st0 := mkState w ∅ (default [] ctx) [InfoExecutingWorkflow workflow_name] in
      st0 :: while_states (S (length (tasks w))) st0
  end.

(** ** The dependency graph of a task table *)

(** [depends_on d n m]: task [n] of the table names [m] as a dependency. *)
Definition depends_on (d : pydict Task) (n m : string) : Prop :=
  exists t, dict_get n d = Some t /\ In m (dependencies t).

(** Every dependency names a task of the table. *)
Definition deps_defined (d : pydict Task) : Prop :=
  forall n m, depends_on d n m -> In m (dict_keys d).

(** No task reaches itself along dependency edges. *)
Definition acyclic (d : pydict Task) : Prop :=
  forall n, ~ tc (depends_on d) n n.

Definition all_pending (d : pydict Task) : Prop :=
  Forall (fun kv => status (snd kv) = PENDING) d.

(** Tasks as [add_task] creates them. *)
Definition all_fresh (d : pydict Task) : Prop :=
  Forall (fun kv => status (snd kv) = PENDING /\ result (snd kv) = PyNone
                    /\ error (snd kv) = None) d.

(** Executable checks of the graph conditions. *)
Definition deps_definedb (d : pydict Task) : bool :=
  forallb (fun kv => forallb (fun m => existsb (String.eqb m) (dict_keys d))
                       (dependencies (snd kv))) d.

Definition rankedb (rank : string -> nat) (d : pydict Task) : bool :=
  forallb (fun kv => forallb (fun m => Nat.ltb (rank m) (rank (fst kv)))
                       (dependencies (snd kv))) d.

(** A task that can never become ready: it lies on a dependency cycle, or it
    names a dependency that is not a task of the table. *)
Definition unrunnable (d : pydict Task) (m : string) : Prop :=
  tc (depends_on d) m m
  \/ exists x, depends_on d m x /\ ~ In x (dict_keys d).

(** ** Invariants *)

(** [resolved t0 t]: [t] is what the [try] statement makes of the task
    object [t0], for some context its action was called with. *)
Inductive resolved (t0 t : Task) : Prop :=
| resolved_completed c c' v :
    action t0 c = (Returns v, c') ->
    t = mkTask (name t0) (action t0) (dependencies t0) COMPLETED v (error t0) ->
    resolved t0 t
| resolved_failed c c' msg :
    action t0 c = (Raises msg, c') ->
    t = mkTask (name t0) (action t0) (dependencies t0) FAILED (result t0) (Some msg) ->
    resolved t0 t.

(** What holds between two iterations of the [for] loop: tasks outside
    [executed_tasks] are as they were, tasks inside were run by this call
    after all their dependencies. *)
Record Inv (d0 : pydict Task) (st : State) : Prop := {
  inv_keys : dict_keys (tasks (workflow st)) = dict_keys d0;
  inv_untouched : forall n,
    n ∉ executed_tasks st -> dict_get n (tasks (workflow st)) = dict_get n d0;
  inv_resolved : forall n,
    n ∈ executed_tasks st ->
    exists t0 t,
      dict_get n d0 = Some t0 /\ is_terminal (status t0) = false
      /\ dict_get n (tasks (workflow st)) = Some t /\ resolved t0 t
      /\ (forall m, In m (dependencies t0) -> m ∈ executed_tasks st);
  inv_acc : forall n,
    n ∈ executed_tasks st -> Acc (flip (depends_on d0)) n;
  inv_logged : forall n,
    In n (invoked (logged st)) <-> n ∈ executed_tasks st
}.





(** The reading of the report that the specification states: a result is
    present exactly for [completed], an error exactly for [failed]. *)
Definition result_iff_completed (report : pydict ReportEntry) : Prop :=
  forall n en, dict_get n report = Some en ->
    (entry_result en <> PyNone <-> entry_status en = "completed")
    /\ (entry_error en <> None <-> entry_status en = "failed").

(** ** Concrete workflows *)

(** [payment] raises; [fulfill] depends on it. *)
Definition declined_payment : Action := fun c => (Raises "card declined", c).

Definition order_with_failing_payment : Workflow :=
  add_task "fulfill" fulfill_order (Some ["payment"])
    (add_task "payment" declined_payment (Some ["validate"])
       (add_task "validate" validate_order (Some [])
          (new_Workflow "order_processing" ""))).

(** Two tasks that wait for each other. *)
Definition do_nothing : Action := fun c => (Returns PyNone, c).

Definition cyclic_workflow : Workflow :=
  add_task "B" do_nothing (Some ["A"])
    (add_task "A" do_nothing (Some ["B"]) (new_Workflow "cyclic" "")).

(** One task that runs and one that names a task never added. *)
Definition dangling_workflow : Workflow :=
  add_task "ship" fulfill_order (Some ["pack"])
    (add_task "validate" validate_order None (new_Workflow "dangling" "")).

(** One task whose action returns [None]. *)
Definition notify_workflow : Workflow :=
  add_task "notify" do_nothing None (new_Workflow "notify" "").

Definition empty_workflow : Workflow := new_Workflow "empty" "".

Definition engine_with (w : Workflow) : WorkflowEngine :=
  fst (register_workflow w (fst new_WorkflowEngine)).

(** The engine after [order_processing] has been executed once. *)
Definition order_engine_after_run : WorkflowEngine :=
  match execute_workflow "order_processing" None order_engine with
  | Some o => engine_after o
  | None => order_engine
  end.

Definition order_rank (n : string) : nat :=
  if String.eqb n "validate" then 0 else if String.eqb n "payment" then 1 else 2.

From Stdlib Require Import Ascii.

(** ** Further notions for the engine *)

(** Workflows as the API builds them: [Workflow(...)] followed by
    [add_task] calls. *)
Inductive built : Workflow -> Prop :=
| built_new n d : built (new_Workflow n d)
| built_add n a deps w : built w -> built (add_task n a deps w).

(** What [execute_workflow] never assigns: the key, the name, the action
    and the dependencies of a task. *)
Definition task_static (kv : string * Task) : string * string * Action * list string :=
  (fst kv, name (snd kv), action (snd kv), dependencies (snd kv)).

(** What the scheduler looks at: the key, the dependencies, and whether the
    status is terminal. *)
Definition task_schedule (kv : string * Task) : string * list string * bool :=
  (fst kv, dependencies (snd kv), is_terminal (status (snd kv))).

(** [l] lists tasks so that each comes after all its dependencies. *)
Definition dependency_ordered (d : pydict Task) (l : list string) : Prop :=
  forall l1 n l2, l = (l1 ++ n :: l2)%list ->
  forall m, depends_on d n m -> In m l1.

(** The context after the actions of [names] have been called one after
    the other, each with the context the one before left. *)
Definition run_actions (d : pydict Task) (names : list string)
    (c : pydict pyval) : pydict pyval :=
  fold_left (fun c n => match dict_get n d with
                        | Some t => snd (action t c)
                        | None => c
                        end) names c.

(** The state of the variables when the [while] loop is left. *)
Definition final_state (workflow_name : string) (ctx : option (pydict pyval))
    (e : WorkflowEngine) : option State :=
  match workflows e !! workflow_name with
  | None => None
  | Some w =>
      fst <$> while_loop (S (length (tasks w)))
                (mkState w ∅ (default [] ctx) [InfoExecutingWorkflow workflow_name])
  end.

(** What holds of the log and the context between two iterations of the
    [for] loop, for a call that began with task table [d0], context [c0]
    and workflow [w0]. *)
Record LogInv (w0 : Workflow) (c0 : pydict pyval) (st : State) : Prop := {
  log_nodup : List.NoDup (invoked (logged st));
  log_ordered : dependency_ordered (tasks w0) (invoked (logged st));
  log_context : context st = run_actions (tasks w0) (invoked (logged st)) c0;
  log_static : map task_static (tasks (workflow st)) = map task_static (tasks w0);
  log_name : wf_name (workflow st) = wf_name w0
             /\ description (workflow st) = description w0
}.

(** Two task tables the scheduler cannot tell apart. *)
Definition same_schedule (d1 d2 : pydict Task) : Prop :=
  map task_schedule d1 = map task_schedule d2.

(** Two states the scheduler cannot tell apart. *)
Definition same_progress (st1 st2 : State) : Prop :=
  same_schedule (tasks (workflow st1)) (tasks (workflow st2))
  /\ executed_tasks st1 = executed_tasks st2
  /\ invoked (logged st1) = invoked (logged st2).

(** ** The API client of [src/tools/enterprise_tools.py] *)

(** [s.lstrip('/')] and [s.rstrip('/')].  Strings are byte strings here; no
    byte of a multi-byte UTF-8 character is the slash, so stripping bytes is
    stripping characters. *)
Fixpoint lstrip_slash (s : string) : string :=
  match s with
  | EmptyString => EmptyString
  | String c s' => if Ascii.eqb c "/"%char then lstrip_slash s' else s
  end.

Fixpoint rstrip_slash (s : string) : string :=
  match s with
  | EmptyString => EmptyString
  | String c s' =>
      match rstrip_slash s' with
      | EmptyString => if Ascii.eqb c "/"%char then EmptyString else String c EmptyString
      | r => String c r
      end
  end.

Record APIClient : Type := mkAPIClient {
  base_url : string;
  timeout : Z;
  retry_attempts : Z;
  headers : pydict string
}.

(** [APIClient(base_url, timeout, retry_attempts, headers)]; the defaults of
    the signature are [timeout=30], [retry_attempts=3], [headers=None]. *)
Definition new_APIClient (url : string) (t r : Z) (h : option (pydict string))
    : APIClient :=
  mkAPIClient (rstrip_slash url) t r (default [] h).

(** [f"{self.base_url}/{endpoint.lstrip('/')}"] *)
Definition request_url (c : APIClient) (endpoint : string) : string :=
  base_url c ++ "/" ++ lstrip_slash endpoint.

Inductive http_method : Type := GET | POST.

(** What one pass through the [try] body does: the three calls
    [requests.get]/[requests.post], [raise_for_status] and [response.json]
    give the decoded body, or one of them raises a
    [requests.exceptions.RequestException], which the [except] clause
    catches, or something else is raised, which it does not catch.  The
    network is a function from the number of the attempt to what that
    attempt does. *)
Inductive attempt_outcome : Type :=
| Responded (body : pyval)
| RequestException (e : string)
| OtherException (e : string).

Inductive api_event : Type :=
| ApiWarningRetrying (m : http_method) (attempt_number : Z)
| ApiErrorFailed (m : http_method) (attempts : Z) (e : string).

Inductive api_result : Type :=
| ApiReturn (v : pyval)
| ApiRaise (reraised : attempt_outcome).

(** What a call leaves behind: the numbers of the attempts it sent, the
    events it logged and how it ended. *)
Record ApiOutcome : Type := mkApiOutcome {
  sent : list nat;
  api_logged : list api_event;
  api_ended : api_result
}.

(** The [for attempt in range(self.retry_attempts)] loop over the attempts
    still to make.  Falling out of the loop returns [None]. *)
Fixpoint retry_loop (m : http_method) (r : Z) (net : nat -> attempt_outcome)
    (todo : list nat) (done : list nat) (log : list api_event) : ApiOutcome :=
  match todo with
  | [] => mkApiOutcome done log (ApiReturn PyNone)
  | attempt :: rest =>
      let done' := (done ++ [attempt])%list in
      match net attempt with
      | Responded body => mkApiOutcome done' log (ApiReturn body)
      | RequestException e =>
          if Z.eqb (Z.of_nat attempt) (r - 1)
          then mkApiOutcome done' (log ++ [ApiErrorFailed m r e])%list
                 (ApiRaise (RequestException e))
          else retry_loop m r net rest done'
                 (log ++ [ApiWarningRetrying m (Z.of_nat attempt + 1)])%list
      | OtherException e => mkApiOutcome done' log (ApiRaise (OtherException e))
      end
  end.

(** The arguments of a call of [requests.get] or [requests.post]. *)
Record Request : Type := mkRequest {
  req_method : http_method;
  req_url : string;
  req_params : option (pydict pyval);
  req_data : option (pydict pyval);
  req_json : option (pydict pyval);
  req_headers : pydict string;
  req_timeout : Z
}.

Definition get_request (c : APIClient) (endpoint : string)
    (params : option (pydict pyval)) : Request :=
  mkRequest GET (request_url c endpoint) params None None (headers c) (timeout c).

Definition post_request (c : APIClient) (endpoint : string)
    (data json : option (pydict pyval)) : Request :=
  mkRequest POST (request_url c endpoint) None data json (headers c) (timeout c).

(** [APIClient.get] and [APIClient.post]: the same loop around
    [requests.get] and [requests.post].  The network answers a request by
    what each attempt at it does. *)
Definition api_get (c : APIClient) (endpoint : string)
    (params : option (pydict pyval))
    (net : Request -> nat -> attempt_outcome) : ApiOutcome :=
  retry_loop GET (retry_attempts c) (net (get_request c endpoint params))
    (seq 0 (Z.to_nat (retry_attempts c))) [] [].

Definition api_post (c : APIClient) (endpoint : string)
    (data json : option (pydict pyval))
    (net : Request -> nat -> attempt_outcome) : ApiOutcome :=
  retry_loop POST (retry_attempts c) (net (post_request c endpoint data json))
    (seq 0 (Z.to_nat (retry_attempts c))) [] [].

(** All attempts before [k] raise a request exception. *)
Definition fails_before (net : nat -> attempt_outcome) (k : nat) : Prop :=
  forall i, i < k -> exists e, net i = RequestException e.

(** The warnings of [k] failed attempts. *)
Definition warnings (m : http_method) (k : nat) : list api_event :=
  map (fun i => ApiWarningRetrying m (Z.of_nat i + 1)) (seq 0 k).

(** A client and two networks for trying the retry loop: one that answers
    at the third attempt, one that never answers. *)
Definition example_client : APIClient :=
  new_APIClient "https://api.example.com/" 30 3 None.

Definition flaky_network (req : Request) (attempt : nat) : attempt_outcome :=
  if Nat.ltb attempt 2 then RequestException "timed out"
  else Responded (PyDict [("ok", PyBool true)]).

Definition dead_network (req : Request) (attempt : nat) : attempt_outcome :=
  RequestException "connection refused".

Definition broken_network (req : Request) (attempt : nat) : attempt_outcome :=
  if Nat.ltb attempt 1 then RequestException "timed out"
  else OtherException "KeyboardInterrupt".

(** * Properties *)

(** ** Dictionaries *)

Section DictFacts.
Context {V : Type}.
Implicit Types (d : pydict V) (k : string) (v : V).

Lemma dict_get_In k v d : dict_get k d = Some v -> In (k, v) d.
Proof.
  induction d as [|[k' v'] d IH]; simpl; [discriminate|].
  destruct (String.eqb_spec k k') as [->|Hne].
  - intros [= ->]. now left.
  - intros H. right. auto.
Qed.

Lemma dict_get_key k v d : dict_get k d = Some v -> In k (dict_keys d).
Proof.
  intros H%dict_get_In. apply in_map_iff. exists (k, v). auto.
Qed.

Lemma dict_get_None k d : ~ In k (dict_keys d) -> dict_get k d = None.
Proof.
  induction d as [|[k' v'] d IH]; simpl; [reflexivity|].
  intros H. destruct (String.eqb_spec k k') as [->|Hne]; [tauto|].
  apply IH. tauto.
Qed.

Lemma dict_key_get k d : In k (dict_keys d) -> exists v, dict_get k d = Some v.
Proof.
  induction d as [|[k' v'] d IH]; simpl; [tauto|].
  intros H. destruct (String.eqb_spec k k') as [->|Hne]; [eauto|].
  apply IH. destruct H; congruence.
Qed.

Lemma In_dict_get k v d :
  List.NoDup (dict_keys d) -> In (k, v) d -> dict_get k d = Some v.
Proof.
  induction d as [|[k' v'] d IH]; simpl; [tauto|].
  intros Hnd [Heq|Hin].
  - injection Heq as -> ->. now rewrite String.eqb_refl.
  - inversion Hnd as [|? ? Hnotin Hnd']; subst.
    destruct (String.eqb_spec k k') as [->|Hne].
    + exfalso. apply Hnotin. apply in_map_iff. exists (k', v). auto.
    + auto.
Qed.

Lemma dict_keys_alter f k d : dict_keys (dict_alter f k d) = dict_keys d.
Proof.
  unfold dict_keys, dict_alter. rewrite map_map. apply map_ext.
  intros [k' v']. simpl. now destruct (String.eqb k k').
Qed.

Lemma dict_alter_length f k d : length (dict_alter f k d) = length d.
Proof. unfold dict_alter. apply length_map. Qed.

Lemma dict_get_alter_eq f k d :
  dict_get k (dict_alter f k d) = option_map f (dict_get k d).
Proof.
  induction d as [|[k' v'] d IH]; simpl; [reflexivity|].
  destruct (String.eqb_spec k k') as [->|Hne]; simpl.
  - now rewrite String.eqb_refl.
  - destruct (String.eqb_spec k k'); [contradiction|]. exact IH.
Qed.

Lemma dict_get_alter_ne f k k' d :
  k <> k' -> dict_get k' (dict_alter f k d) = dict_get k' d.
Proof.
  intros Hne. induction d as [|[k0 v0] d IH]; simpl; [reflexivity|].
  destruct (String.eqb_spec k k0) as [->|Hne0]; simpl.
  - destruct (String.eqb_spec k' k0); [congruence|]. exact IH.
  - destruct (String.eqb_spec k' k0); [reflexivity|]. exact IH.
Qed.

Lemma dict_keys_set k v d :
  dict_keys (dict_set k v d)
  = if existsb (String.eqb k) (dict_keys d) then dict_keys d
    else (dict_keys d ++ [k])%list.
Proof.
  induction d as [|[k' v'] d IH]; simpl; [reflexivity|].
  destruct (String.eqb_spec k k') as [->|Hne]; simpl; [reflexivity|].
  fold (dict_keys d). rewrite IH.
  now destruct (existsb (String.eqb k) (dict_keys d)).
Qed.

Lemma dict_set_NoDup k v d :
  List.NoDup (dict_keys d) -> List.NoDup (dict_keys (dict_set k v d)).
Proof.
  intros Hnd. rewrite dict_keys_set.
  destruct (existsb (String.eqb k) (dict_keys d)) eqn:Hex; [exact Hnd|].
  assert (Hk : ~ In k (dict_keys d)).
  { intros Hin. apply Bool.not_true_iff_false in Hex. apply Hex.
    apply existsb_exists. exists k. split; [exact Hin|apply String.eqb_refl]. }
  apply NoDup_ListNoDup, NoDup_app.
  split; [now apply NoDup_ListNoDup|]. split; [|apply NoDup_singleton].
  intros x Hx Hx'. apply list_elem_of_singleton in Hx'. subst x.
  apply Hk. now apply list_elem_of_In.
Qed.

Lemma dict_get_set_eq k v d : dict_get k (dict_set k v d) = Some v.
Proof.
  induction d as [|[k' v'] d IH]; simpl.
  - now rewrite String.eqb_refl.
  - destruct (String.eqb_spec k k') as [->|Hne]; simpl.
    + now rewrite String.eqb_refl.
    + destruct (String.eqb_spec k k'); [contradiction|]. exact IH.
Qed.
End DictFacts.

(** ** One task *)

Lemma resolved_status t0 t :
  resolved t0 t -> status t = COMPLETED \/ status t = FAILED.
Proof. intros [c c' v _ ->|c c' msg _ ->]; simpl; auto. Qed.


Lemma invoked_app l1 l2 : invoked (l1 ++ l2) = (invoked l1 ++ invoked l2)%list.
Proof. unfold invoked. apply flat_map_app. Qed.

Lemma try_block_spec n task st :
  dict_get n (tasks (workflow st)) = Some task ->
  let st' := try_block n task st in
  dict_keys (tasks (workflow st')) = dict_keys (tasks (workflow st))
  /\ executed_tasks st' = {[n]} ∪ executed_tasks st
  /\ (forall m, m <> n ->
        dict_get m (tasks (workflow st')) = dict_get m (tasks (workflow st)))
  /\ (exists t, dict_get n (tasks (workflow st')) = Some t /\ resolved task t)
  /\ invoked (logged st') = (invoked (logged st) ++ [n])%list.
Proof.
  intros Hget. unfold try_block, begin_task. simpl.
  destruct (action task (context st)) as [[v|msg] c] eqn:Hact; simpl.
  - repeat split.
    + now rewrite !dict_keys_alter.
    + intros m Hm. rewrite !dict_get_alter_ne by congruence. reflexivity.
    + rewrite !dict_get_alter_eq, Hget. simpl. eexists. split; [reflexivity|].
      eapply resolved_completed; [exact Hact|reflexivity].
    + rewrite invoked_app. reflexivity.
  - repeat split.
    + now rewrite !dict_keys_alter.
    + intros m Hm. rewrite !dict_get_alter_ne by congruence. reflexivity.
    + rewrite !dict_get_alter_eq, Hget. simpl. eexists. split; [reflexivity|].
      eapply resolved_failed; [exact Hact|reflexivity].
    + rewrite !invoked_app. simpl. now rewrite app_nil_r.
Qed.

Lemma deps_met_spec task st :
  deps_met task st = true <->
  forall m, In m (dependencies task) -> m ∈ executed_tasks st.
Proof.
  unfold deps_met. rewrite forallb_forall. split; intros H m Hm.
  - specialize (H m Hm). now apply bool_decide_eq_true in H.
  - apply bool_decide_eq_true. auto.
Qed.

(** ** The scheduling invariant *)

Section Run.
(** The task table as it was when the call began. *)
Variable d0 : pydict Task.
Hypothesis d0_keys : List.NoDup (dict_keys d0).

Lemma Inv_init w c evs :
  tasks w = d0 -> invoked evs = [] -> Inv d0 (mkState w ∅ c evs).
Proof.
  intros Hw Hevs. split; simpl.
  - now rewrite Hw.
  - intros n _. now rewrite Hw.
  - intros n Hn. set_solver.
  - intros n Hn. set_solver.
  - intros n. rewrite Hevs. simpl. set_solver.
Qed.

Lemma Inv_executed_key st n :
  Inv d0 st -> n ∈ executed_tasks st -> In n (dict_keys d0).
Proof.
  intros HI Hn. destruct (inv_resolved d0 st HI n Hn) as (t0 & t & H0 & _).
  eapply dict_get_key; eauto.
Qed.

Lemma Inv_size st : Inv d0 st -> size (executed_tasks st) <= length d0.
Proof.
  intros HI.
  assert (Hsub : executed_tasks st ⊆ list_to_set (C := gset string) (dict_keys d0)).
  { intros n Hn. apply elem_of_list_to_set, list_elem_of_In.
    eapply Inv_executed_key; eauto. }
  apply subseteq_size in Hsub.
  rewrite size_list_to_set in Hsub by now apply NoDup_ListNoDup.
  unfold dict_keys in Hsub. now rewrite length_map in Hsub.
Qed.

(** When the loop condition fails, every task of the table is in
    [executed_tasks]. *)
Lemma Inv_full st n :
  Inv d0 st -> length d0 <= size (executed_tasks st) ->
  In n (dict_keys d0) -> n ∈ executed_tasks st.
Proof.
  intros HI Hle Hn.
  assert (Hsub : executed_tasks st ⊆ list_to_set (C := gset string) (dict_keys d0)).
  { intros m Hm. apply elem_of_list_to_set, list_elem_of_In.
    eapply Inv_executed_key; eauto. }
  assert (Hsz : size (list_to_set (C := gset string) (dict_keys d0)) = length d0).
  { rewrite size_list_to_set by now apply NoDup_ListNoDup.
    unfold dict_keys. now rewrite length_map. }
  assert (Heq : executed_tasks st ≡ list_to_set (C := gset string) (dict_keys d0)).
  { apply set_subseteq_size_equiv; [exact Hsub|]. rewrite Hsz. exact Hle. }
  apply Heq. now apply elem_of_list_to_set, list_elem_of_In.
Qed.

(** *** The [for] loop *)

Lemma for_body_spec st p n :
  Inv d0 st ->
  let r := for_body (st, p) n in
  Inv d0 (fst r)
  /\ (r = (st, p)
      \/ (snd r = true /\ (n ∉ executed_tasks st)
          /\ executed_tasks (fst r) = {[n]} ∪ executed_tasks st
          /\ exists task, dict_get n d0 = Some task
               /\ fst r = try_block n task st)).
Proof.
  intros HI. unfold for_body.
  destruct (dict_get n (tasks (workflow st))) as [task|] eqn:Hget; [|auto].
  destruct (is_terminal (status task)) eqn:Hterm; [auto|].
  destruct (deps_met task st) eqn:Hdeps; [|auto].
  simpl.
  assert (Hn : n ∉ executed_tasks st).
  { intros Hin. destruct (inv_resolved d0 st HI n Hin) as (t0 & t & _ & _ & Ht & Hres & _).
    rewrite Hget in Ht. injection Ht as <-.
    destruct (resolved_status _ _ Hres) as [E|E]; rewrite E in Hterm; discriminate. }
  assert (H0 : dict_get n d0 = Some task).
  { rewrite <- (inv_untouched d0 st HI n Hn). exact Hget. }
  destruct (try_block_spec n task st Hget) as (Hk & He & Hother & (t & Ht & Hres) & Hlog).
  split.
  - split.
    + rewrite Hk. apply (inv_keys d0 st HI).
    + intros m Hm. rewrite He in Hm.
      assert (m <> n) by set_solver.
      rewrite Hother by assumption. apply (inv_untouched d0 st HI). set_solver.
    + intros m Hm. rewrite He in Hm. rewrite He.
      destruct (decide (m = n)) as [->|Hne].
      * exists task, t. repeat split; try assumption.
        intros m Hm'. apply deps_met_spec with (m := m) in Hdeps; [set_solver|exact Hm'].
      * assert (Hm' : m ∈ executed_tasks st) by set_solver.
        destruct (inv_resolved d0 st HI m Hm') as (t0 & t' & A & B & C & D & E).
        exists t0, t'. rewrite Hother by assumption. repeat split; try assumption.
        intros m' Hin. specialize (E m' Hin). set_solver.
    + intros m Hm. rewrite He in Hm.
      destruct (decide (m = n)) as [->|Hne].
      * constructor. intros y (t' & Ht' & Hy). rewrite H0 in Ht'. injection Ht' as <-.
        apply (inv_acc d0 st HI). now apply deps_met_spec with (m := y) in Hdeps.
      * apply (inv_acc d0 st HI). set_solver.
    + intros m. rewrite Hlog, He, in_app_iff, (inv_logged d0 st HI m). simpl.
      set_solver.
  - right. repeat split; try assumption. exists task. auto.
Qed.

Lemma fold_for_body_spec l st p :
  Inv d0 st ->
  let r := fold_left for_body l (st, p) in
  Inv d0 (fst r)
  /\ executed_tasks st ⊆ executed_tasks (fst r)
  /\ (r = (st, p)
      \/ (snd r = true /\ size (executed_tasks st) < size (executed_tasks (fst r)))).
Proof.
  revert st p. induction l as [|n l IH]; intros st p HI; cbn [fold_left].
  - cbv zeta. cbn [fst snd]. split; [exact HI|]. split; [reflexivity|now left].
  - pose proof (for_body_spec st p n HI) as [HI1 Hstep]. cbv zeta in *.
    destruct (for_body (st, p) n) as [st1 p1]. cbn [fst snd] in HI1, Hstep.
    destruct (IH st1 p1 HI1) as (HI2 & Hsub & Hrest).
    destruct Hstep as [[= -> ->]|(-> & Hn & He & _)].
    + split; [exact HI2|]. split; [exact Hsub|exact Hrest].
    + split; [exact HI2|]. split; [set_solver|]. right.
      assert (Hlt : size (executed_tasks st) < size (executed_tasks st1)).
      { rewrite He, size_union by set_solver. rewrite size_singleton. lia. }
      destruct Hrest as [->|[-> Hlt']]; cbn [fst snd]; split; auto; lia.
Qed.

(** A task that is ready when the scan begins makes the scan progress. *)
Lemma fold_for_body_progress l st p n task :
  Inv d0 st -> In n l -> n ∉ executed_tasks st ->
  dict_get n d0 = Some task -> is_terminal (status task) = false ->
  (forall m, In m (dependencies task) -> m ∈ executed_tasks st) ->
  snd (fold_left for_body l (st, p)) = true.
Proof.
  revert st p. induction l as [|k l IH]; intros st p HI Hin Hn H0 Hterm Hdeps; [easy|].
  cbn [fold_left]. pose proof (for_body_spec st p k HI) as [HI1 Hstep]. cbv zeta in *.
  destruct (decide (k = n)) as [->|Hne].
  - assert (Hfb : for_body (st, p) n = (try_block n task st, true)).
    { unfold for_body. rewrite (inv_untouched d0 st HI n Hn), H0, Hterm.
      apply deps_met_spec in Hdeps. now rewrite Hdeps. }
    rewrite Hfb in *. cbn [fst] in HI1.
    destruct (fold_for_body_spec l _ true HI1) as (_ & _ & [->|[-> _]]); reflexivity.
  - destruct Hin as [?|Hin]; [contradiction|].
    destruct (for_body (st, p) k) as [st1 p1]. cbn [fst snd] in HI1, Hstep.
    apply (IH st1 p1 HI1 Hin); try assumption.
    + destruct Hstep as [[= -> ->]|(_ & _ & He & _)]; [exact Hn|]. set_solver.
    + intros m Hm. specialize (Hdeps m Hm).
      destruct Hstep as [[= -> ->]|(_ & _ & He & _)]; [exact Hdeps|]. set_solver.
Qed.

(** *** The [while] loop *)

Lemma while_loop_spec fuel st :
  Inv d0 st -> length d0 - size (executed_tasks st) < fuel ->
  exists st' ex,
    while_loop fuel st = Some (st', ex)
    /\ Inv d0 st' /\ executed_tasks st ⊆ executed_tasks st'
    /\ match ex with
       | LoopDone => length d0 <= size (executed_tasks st')
       | LoopRaise e =>
           e = RuntimeError_cannot_execute (remaining st')
           /\ size (executed_tasks st') < length d0
           /\ scan st' = (st', false)
       end.
Proof.
  revert st. induction fuel as [|fuel IH]; intros st HI Hfuel; [lia|].
  cbn [while_loop].
  assert (Hlen : length (tasks (workflow st)) = length d0).
  { generalize (f_equal (@length _) (inv_keys d0 st HI)). unfold dict_keys.
    now rewrite !length_map. }
  rewrite Hlen.
  destruct (Nat.ltb_spec (size (executed_tasks st)) (length d0)) as [Hlt|Hge].
  - pose proof (fold_for_body_spec (dict_keys (tasks (workflow st))) st false HI)
      as (HI1 & Hsub & Hprog). cbv zeta in *.
    fold (scan st) in *. destruct (scan st) as [st1 p1] eqn:Hscan.
    cbn [fst snd] in HI1, Hsub, Hprog.
    destruct Hprog as [[= -> ->]|[-> Hgrow]].
    + exists st, (LoopRaise (RuntimeError_cannot_execute (remaining st))).
      split; [reflexivity|]. split; [exact HI|]. split; [reflexivity|]. auto.
    + destruct (IH st1 HI1) as (st' & ex & Hrun & HI' & Hsub' & Hex); [lia|].
      exists st', ex. split; [exact Hrun|]. split; [exact HI'|].
      split; [set_solver|exact Hex].
  - exists st, LoopDone. split; [reflexivity|]. split; [exact HI|].
    split; [reflexivity|exact Hge].
Qed.
End Run.

(** ** Dependency graphs *)

Lemma depends_on_key d n m : depends_on d n m -> In n (dict_keys d).
Proof. intros (t & Ht & _). eapply dict_get_key; eauto. Qed.

Lemma Acc_no_cycle d n :
  Acc (flip (depends_on d)) n -> ~ tc (depends_on d) n n.
Proof.
  induction 1 as [n _ IH]. intros Hc.
  inversion Hc as [? ? Hnn|? y ? Hny Hyn]; subst.
  - apply (IH n Hnn). exact Hc.
  - apply (IH y Hny). eapply tc_r; eauto.
Qed.

(** In an acyclic, fully-defined table some unresolved task is ready as long
    as some task is unresolved.  [V] is the dependency path walked so far. *)
Lemma acyclic_ready_aux d (E : gset string) :
  deps_defined d -> acyclic d ->
  forall k V n,
    List.NoDup V -> incl V (dict_keys d) ->
    length (dict_keys d) - length V <= k ->
    (forall v, In v V -> tc (depends_on d) v n) ->
    In n (dict_keys d) -> n ∉ E ->
    exists m task,
      In m (dict_keys d) /\ (m ∉ E) /\ dict_get m d = Some task
      /\ forall x, In x (dependencies task) -> x ∈ E.
Proof.
  intros Hdef Hacy. induction k as [|k IH]; intros V n HV Hincl Hk Hpath Hn HnE.
  - exfalso.
    assert (HnV : ~ In n V) by (intros Hin; exact (Hacy n (Hpath n Hin))).
    assert (Hlen : length (n :: V) <= length (dict_keys d)).
    { apply List.NoDup_incl_length; [now constructor|].
      intros x [<-|Hx]; auto. }
    simpl in Hlen. lia.
  - destruct (dict_key_get n d Hn) as [task Htask].
    destruct (List.Forall_Exists_dec (fun x => x ∈ E) (fun x => decide (x ∈ E))
                (dependencies task)) as [Hall|Hex].
    + exists n, task. repeat split; auto. now apply List.Forall_forall.
    + apply List.Exists_exists in Hex as (x & Hx & HxE).
      assert (Hnx : depends_on d n x) by (exists task; auto).
      assert (HnV : ~ In n V) by (intros Hin; exact (Hacy n (Hpath n Hin))).
      assert (Hlen : length (n :: V) <= length (dict_keys d)).
      { apply List.NoDup_incl_length; [now constructor|].
        intros y [<-|Hy]; auto. }
      simpl in Hlen.
      apply (IH (n :: V) x).
      * now constructor.
      * intros y [<-|Hy]; auto.
      * simpl. lia.
      * intros v [<-|Hv]; [now apply tc_once|]. eapply tc_r; eauto.
      * exact (Hdef n x Hnx).
      * exact HxE.
Qed.

Lemma acyclic_ready d (E : gset string) n :
  deps_defined d -> acyclic d -> In n (dict_keys d) -> n ∉ E ->
  exists m task,
    In m (dict_keys d) /\ (m ∉ E) /\ dict_get m d = Some task
    /\ forall x, In x (dependencies task) -> x ∈ E.
Proof.
  intros Hdef Hacy Hn HnE.
  apply (acyclic_ready_aux d E Hdef Hacy (length (dict_keys d)) [] n); auto.
  - constructor.
  - intros x [].
  - simpl. lia.
  - intros v [].
Qed.

Lemma deps_definedb_spec d : deps_definedb d = true -> deps_defined d.
Proof.
  unfold deps_definedb. rewrite forallb_forall. intros H n m (t & Ht & Hm).
  specialize (H (n, t) (dict_get_In _ _ _ Ht)). simpl in H.
  rewrite forallb_forall in H. specialize (H m Hm).
  apply existsb_exists in H as (k & Hk & Heq).
  apply String.eqb_eq in Heq. now subst.
Qed.

(** A table whose dependencies all have a smaller rank is acyclic. *)
Lemma rankedb_acyclic rank d : rankedb rank d = true -> acyclic d.
Proof.
  unfold rankedb. rewrite forallb_forall. intros H.
  assert (Hlt : forall n m, tc (depends_on d) n m -> rank m < rank n).
  { induction 1 as [n m (t & Ht & Hm)|n m k (t & Ht & Hm) _ IH].
    - specialize (H (n, t) (dict_get_In _ _ _ Ht)). simpl in H.
      rewrite forallb_forall in H. now apply Nat.ltb_lt, H.
    - specialize (H (n, t) (dict_get_In _ _ _ Ht)). simpl in H.
      rewrite forallb_forall in H. apply H, Nat.ltb_lt in Hm. lia. }
  intros n Hc. apply Hlt in Hc. lia.
Qed.

(** ** The whole call *)

Lemma collect_results_keys w : dict_keys (collect_results w) = dict_keys (tasks w).
Proof. unfold collect_results, dict_keys. rewrite map_map. reflexivity. Qed.

Lemma collect_results_get n w :
  dict_get n (collect_results w)
  = option_map (fun t => mkEntry (TaskStatus_value (status t)) (result t) (error t))
      (dict_get n (tasks w)).
Proof.
  unfold collect_results. induction (tasks w) as [|[k t] d IH]; simpl; [reflexivity|].
  destruct (String.eqb n k); [reflexivity|exact IH].
Qed.

(** [execute_workflow] on a registered workflow: the loop ends within its
    bound, in a state that satisfies the invariant, and the call either
    returns the collected results or raises the deadlock error after a scan
    that changed nothing. *)
Lemma execute_workflow_spec e wn ctx w :
  workflows e !! wn = Some w ->
  List.NoDup (dict_keys (tasks w)) ->
  exists st,
    Inv (tasks w) st
    /\ ((length (tasks w) <= size (executed_tasks st)
         /\ execute_workflow wn ctx e
            = Some (mkOutcome (mkEngine (<[wn := workflow st]> (workflows e)))
                      (logged st ++ [InfoWorkflowCompleted wn
                                       (success_count (workflow st))
                                       (length (tasks (workflow st)))])%list
                      (Return (collect_results (workflow st)))))
        \/ (size (executed_tasks st) < length (tasks w)
            /\ scan st = (st, false)
            /\ execute_workflow wn ctx e
               = Some (mkOutcome (mkEngine (<[wn := workflow st]> (workflows e)))
                         (logged st)
                         (Raise (RuntimeError_cannot_execute (remaining st)))))).
Proof.
  intros Hw Hnd. unfold execute_workflow. rewrite Hw.
  set (st0 := mkState w ∅ (default [] ctx) [InfoExecutingWorkflow wn]).
  assert (HI0 : Inv (tasks w) st0) by (apply Inv_init; solve [assumption|reflexivity]).
  destruct (while_loop_spec (tasks w) Hnd (S (length (tasks w))) st0 HI0)
    as (st & ex & Hrun & HI & _ & Hex); [lia|].
  rewrite Hrun. exists st. split; [exact HI|].
  destruct ex as [|ex]; cbn iota in Hex.
  - left. split; [exact Hex|reflexivity].
  - destruct Hex as (-> & Hlt & Hscan). right. repeat split; assumption.
Qed.

Lemma all_pending_get d n t :
  all_pending d -> dict_get n d = Some t -> status t = PENDING.
Proof.
  intros Hall Hget. apply dict_get_In in Hget.
  unfold all_pending in Hall. rewrite List.Forall_forall in Hall.
  exact (Hall (n, t) Hget).
Qed.

(** With an acyclic, fully-defined table of pending tasks, a scan that starts
    with unresolved tasks resolves at least one of them. *)
Lemma scan_progress d0 st :
  List.NoDup (dict_keys d0) -> all_pending d0 -> deps_defined d0 -> acyclic d0 ->
  Inv d0 st -> size (executed_tasks st) < length d0 ->
  snd (scan st) = true.
Proof.
  intros Hnd Hpend Hdef Hacy HI Hlt.
  destruct (List.Forall_Exists_dec (fun n => n ∈ executed_tasks st)
              (fun n => decide (n ∈ executed_tasks st)) (dict_keys d0)) as [Hall|Hex].
  - exfalso.
    assert (Hsub : list_to_set (C := gset string) (dict_keys d0) ⊆ executed_tasks st).
    { intros n Hn. apply elem_of_list_to_set, list_elem_of_In in Hn.
      rewrite List.Forall_forall in Hall. auto. }
    apply subseteq_size in Hsub.
    rewrite size_list_to_set in Hsub by now apply NoDup_ListNoDup.
    unfold dict_keys in Hsub. rewrite length_map in Hsub. lia.
  - apply List.Exists_exists in Hex as (n & Hn & HnE).
    destruct (acyclic_ready d0 (executed_tasks st) n Hdef Hacy Hn HnE)
      as (m & task & Hm & HmE & Hget & Hdeps).
    unfold scan. rewrite (inv_keys d0 st HI).
    apply (fold_for_body_progress d0 Hnd (dict_keys d0) st false m task); auto.
    now rewrite (all_pending_get d0 m task Hpend Hget).
Qed.

(** The call returns on such a workflow, from a state in which every task
    is in [executed_tasks]. *)
Lemma execute_workflow_returns e wn ctx w :
  workflows e !! wn = Some w ->
  List.NoDup (dict_keys (tasks w)) ->
  all_pending (tasks w) -> deps_defined (tasks w) -> acyclic (tasks w) ->
  exists st,
    Inv (tasks w) st
    /\ (forall n, In n (dict_keys (tasks w)) -> n ∈ executed_tasks st)
    /\ execute_workflow wn ctx e
       = Some (mkOutcome (mkEngine (<[wn := workflow st]> (workflows e)))
                 (logged st ++ [InfoWorkflowCompleted wn
                                  (success_count (workflow st))
                                  (length (tasks (workflow st)))])%list
                 (Return (collect_results (workflow st)))).
Proof.
  intros Hw Hnd Hpend Hdef Hacy.
  destruct (execute_workflow_spec e wn ctx w Hw Hnd)
    as (st & HI & [[Hdone Hrun]|(Hlt & Hscan & _)]).
  - exists st. split; [exact HI|]. split; [|exact Hrun].
    intros n Hn. eapply Inv_full; eauto.
  - exfalso. pose proof (scan_progress (tasks w) st Hnd Hpend Hdef Hacy HI Hlt) as Hp.
    rewrite Hscan in Hp. discriminate.
Qed.

(** What the report says of a task that is in [executed_tasks]. *)
Lemma report_entry_resolved d0 st n :
  Inv d0 st -> n ∈ executed_tasks st ->
  exists t0 t,
    dict_get n d0 = Some t0 /\ resolved t0 t
    /\ dict_get n (tasks (workflow st)) = Some t
    /\ dict_get n (collect_results (workflow st))
       = Some (mkEntry (TaskStatus_value (status t)) (result t) (error t)).
Proof.
  intros HI Hn. destruct (inv_resolved d0 st HI n Hn) as (t0 & t & H0 & _ & Ht & Hres & _).
  exists t0, t. repeat split; auto. rewrite collect_results_get, Ht. reflexivity.
Qed.

(** C1: on a workflow whose tasks are all pending and whose dependency
    graph is acyclic and names only tasks of the workflow,
    [execute_workflow] ends within its iteration bound and returns a report
    with exactly the workflow's task names as keys, every entry having
    status [completed] or [failed]. *)
Theorem execute_workflow_terminates_with_full_report e wn ctx w :
  workflows e !! wn = Some w ->
  List.NoDup (dict_keys (tasks w)) ->
  all_pending (tasks w) -> deps_defined (tasks w) -> acyclic (tasks w) ->
  exists o report,
    execute_workflow wn ctx e = Some o
    /\ ended o = Return report
    /\ dict_keys report = dict_keys (tasks w)
    /\ forall n, In n (dict_keys (tasks w)) ->
         exists en, dict_get n report = Some en
           /\ (entry_status en = "completed" \/ entry_status en = "failed").
Proof.
  intros Hw Hnd Hpend Hdef Hacy.
  destruct (execute_workflow_returns e wn ctx w Hw Hnd Hpend Hdef Hacy)
    as (st & HI & Hfull & Hrun).
  eexists _, _. split; [exact Hrun|]. split; [reflexivity|]. split.
  - rewrite collect_results_keys. apply (inv_keys _ _ HI).
  - intros n Hn.
    destruct (report_entry_resolved _ st n HI (Hfull n Hn)) as (t0 & t & _ & Hres & _ & Hrep).
    eexists. split; [exact Hrep|]. simpl.
    destruct (resolved_status _ _ Hres) as [->| ->]; auto.
Qed.

Lemma invoked_completed evs wn a b :
  invoked (evs ++ [InfoWorkflowCompleted wn a b]) = invoked evs.
Proof. rewrite invoked_app. simpl. apply app_nil_r. Qed.


Lemma all_fresh_get d n t :
  all_fresh d -> dict_get n d = Some t ->
  status t = PENDING /\ result t = PyNone /\ error t = None.
Proof.
  intros Hall Hget. apply dict_get_In in Hget.
  unfold all_fresh in Hall. rewrite List.Forall_forall in Hall.
  exact (Hall (n, t) Hget).
Qed.

(** C6, as the code has it: in a report returned for a workflow of fresh
    tasks every entry is [completed] or [failed]; its error is present
    exactly when it is [failed]; a [completed] entry holds, with no error,
    the value its action returned, which is [None] when the action returned
    [None]; a [failed] entry holds no result.  So result and error are never
    both present, and a result is present only for [completed]. *)
Theorem report_result_and_error e wn ctx w o report :
  workflows e !! wn = Some w ->
  List.NoDup (dict_keys (tasks w)) ->
  all_fresh (tasks w) ->
  execute_workflow wn ctx e = Some o ->
  ended o = Return report ->
  forall n en,
    dict_get n report = Some en ->
    (entry_status en = "completed" \/ entry_status en = "failed")
    /\ (entry_error en <> None <-> entry_status en = "failed")
    /\ (entry_result en <> PyNone -> entry_status en = "completed")
    /\ (entry_status en = "completed" ->
          entry_error en = None
          /\ exists t c, dict_get n (tasks w) = Some t
               /\ fst (action t c) = Returns (entry_result en))
    /\ (entry_status en = "failed" -> entry_result en = PyNone)
    /\ ~ (entry_result en <> PyNone /\ entry_error en <> None).
Proof.
  intros Hw Hnd Hfresh Hrun Hend n en Hen.
  destruct (execute_workflow_spec e wn ctx w Hw Hnd)
    as (st & HI & [[Hdone Hrun']|(_ & _ & Hrun')]);
    rewrite Hrun' in Hrun; injection Hrun as <-; simpl in Hend; [|discriminate].
  injection Hend as <-.
  assert (Hkey : In n (dict_keys (tasks w))).
  { rewrite <- (inv_keys _ _ HI), <- collect_results_keys. eapply dict_get_key; eauto. }
  assert (Hn : n ∈ executed_tasks st) by (eapply Inv_full; eauto).
  destruct (report_entry_resolved _ st n HI Hn) as (t0 & t & H0 & Hres & _ & Hrep).
  rewrite Hrep in Hen. injection Hen as <-.
  destruct (all_fresh_get _ _ _ Hfresh H0) as (_ & Hr0 & He0).
  destruct Hres as [c c' v Hact ->|c c' msg Hact ->]; simpl; rewrite ?Hr0, ?He0.
  - repeat split; try (intros; congruence); auto.
    + exists t0, c. now rewrite Hact.
    + intros [_ H]. congruence.
  - repeat split; try (intros; congruence); auto.
    intros [H _]. congruence.
Qed.

(** ** Deadlock *)

Lemma Inv_closed d0 st n m :
  Inv d0 st -> n ∈ executed_tasks st -> depends_on d0 n m -> m ∈ executed_tasks st.
Proof.
  intros HI Hn (t & Ht & Hm).
  destruct (inv_resolved d0 st HI n Hn) as (t0 & _ & H0 & _ & _ & _ & Hdeps).
  rewrite Ht in H0. injection H0 as <-. auto.
Qed.

Lemma Inv_closed_tc d0 st n m :
  Inv d0 st -> n ∈ executed_tasks st -> tc (depends_on d0) n m -> m ∈ executed_tasks st.
Proof.
  intros HI Hn Htc. induction Htc as [n m H|n k m H _ IH].
  - eapply Inv_closed; eauto.
  - apply IH. eapply Inv_closed; eauto.
Qed.

Lemma Inv_unrunnable d0 st m :
  Inv d0 st -> unrunnable d0 m -> m ∉ executed_tasks st.
Proof.
  intros HI [Hcyc|(x & Hx & Hmiss)] Hm.
  - exact (Acc_no_cycle d0 m (inv_acc d0 st HI m Hm) Hcyc).
  - apply Hmiss. eapply Inv_executed_key; [exact HI|]. eapply Inv_closed; eauto.
Qed.

Lemma unrunnable_key d m : unrunnable d m -> In m (dict_keys d).
Proof.
  intros [Hcyc|(x & Hx & _)].
  - inversion Hcyc; subst; eapply depends_on_key; eauto.
  - eapply depends_on_key; eauto.
Qed.

Lemma remaining_spec st n :
  In n (remaining st)
  <-> In n (dict_keys (tasks (workflow st))) /\ n ∉ executed_tasks st.
Proof.
  unfold remaining. rewrite filter_In, negb_true_iff, bool_decide_eq_false. tauto.
Qed.

Lemma filter_keys {V} (P : string * V -> bool) (Q : string -> bool) (l : pydict V) :
  (forall kv, In kv l -> Q (fst kv) = P kv) ->
  List.filter Q (dict_keys l) = dict_keys (List.filter P l).
Proof.
  induction l as [|kv l IH]; intros H; simpl; [reflexivity|].
  rewrite (H kv) by now left. rewrite IH by (intros; apply H; now right).
  now destruct (P kv).
Qed.

(** For a table of pending tasks, [remaining] lists the tasks whose status
    is still not terminal, in insertion order. *)
Lemma remaining_not_terminal d0 st :
  List.NoDup (dict_keys d0) -> all_pending d0 -> Inv d0 st ->
  remaining st
  = dict_keys (List.filter (fun kv => negb (is_terminal (status (snd kv))))
                 (tasks (workflow st))).
Proof.
  intros Hnd Hpend HI. unfold remaining. apply filter_keys.
  intros [n t] Hin. simpl. f_equal.
  assert (Hget : dict_get n (tasks (workflow st)) = Some t).
  { apply In_dict_get; [|exact Hin]. now rewrite (inv_keys d0 st HI). }
  destruct (decide (n ∈ executed_tasks st)) as [Hn|Hn].
  - rewrite bool_decide_eq_true_2 by exact Hn.
    destruct (inv_resolved d0 st HI n Hn) as (t0 & t' & _ & _ & Ht & Hres & _).
    rewrite Hget in Ht. injection Ht as <-.
    destruct (resolved_status _ _ Hres) as [-> | ->]; reflexivity.
  - rewrite bool_decide_eq_false_2 by exact Hn.
    rewrite (inv_untouched d0 st HI n Hn) in Hget.
    now rewrite (all_pending_get d0 n t Hpend Hget).
Qed.

(** C4: when a workflow has a task on a dependency cycle, or a task that
    names a dependency never added to the workflow, [execute_workflow]
    raises the cannot-execute error.  That task and every task depending on
    it, directly or transitively, are named in the error; the names are
    exactly those of the tasks the call never started; and when all tasks
    were pending at the start they are the names of the tasks whose status
    is still not terminal, in insertion order. *)
Theorem cycle_or_missing_dependency_raises e wn ctx w m :
  workflows e !! wn = Some w ->
  List.NoDup (dict_keys (tasks w)) ->
  unrunnable (tasks w) m ->
  exists o rem w',
    execute_workflow wn ctx e = Some o
    /\ ended o = Raise (RuntimeError_cannot_execute rem)
    /\ workflows (engine_after o) !! wn = Some w'
    /\ In m rem
    /\ (forall n, tc (depends_on (tasks w)) n m -> In n rem)
    /\ (forall n, In n rem <->
                  In n (dict_keys (tasks w)) /\ ~ In n (invoked (events o)))
    /\ (all_pending (tasks w) ->
        rem = dict_keys (List.filter (fun kv => negb (is_terminal (status (snd kv))))
                           (tasks w'))).
Proof.
  intros Hw Hnd Hm.
  destruct (execute_workflow_spec e wn ctx w Hw Hnd)
    as (st & HI & [[Hdone _]|(_ & _ & Hrun)]).
  - exfalso. apply (Inv_unrunnable _ st m HI Hm).
    eapply Inv_full; eauto. now apply unrunnable_key.
  - eexists _, (remaining st), (workflow st). split; [exact Hrun|].
    cbn [ended engine_after workflows events].
    split; [reflexivity|]. split; [apply lookup_insert_eq|].
    split; [|split; [|split]].
    + apply remaining_spec. rewrite (inv_keys _ _ HI).
      split; [now apply unrunnable_key|]. now apply (Inv_unrunnable (tasks w)).
    + intros n Htc. apply remaining_spec. rewrite (inv_keys _ _ HI). split.
      * inversion Htc; subst; eapply depends_on_key; eauto.
      * intros Hn. apply (Inv_unrunnable _ st m HI Hm). eapply Inv_closed_tc; eauto.
    + intros n. rewrite remaining_spec, (inv_keys _ _ HI), (inv_logged _ _ HI). tauto.
    + intros Hpend. now apply (remaining_not_terminal (tasks w)).
Qed.

(** C10: when [execute_workflow] raises the cannot-execute error, the
    workflow registered in the engine keeps what the call did before: each
    task that is not listed in the error was started by the call and is
    [COMPLETED] with the value its action returned as result, or [FAILED]
    with the message its action raised as error; the listed tasks are as
    they were. *)
Theorem deadlock_keeps_partial_results e wn ctx w o rem :
  workflows e !! wn = Some w ->
  List.NoDup (dict_keys (tasks w)) ->
  execute_workflow wn ctx e = Some o ->
  ended o = Raise (RuntimeError_cannot_execute rem) ->
  exists w',
    workflows (engine_after o) !! wn = Some w'
    /\ dict_keys (tasks w') = dict_keys (tasks w)
    /\ (forall n, In n rem -> dict_get n (tasks w') = dict_get n (tasks w))
    /\ (forall n, In n (dict_keys (tasks w)) -> ~ In n rem ->
          In n (invoked (events o))
          /\ exists t0 t,
               dict_get n (tasks w) = Some t0 /\ dict_get n (tasks w') = Some t
               /\ ((status t = COMPLETED /\ error t = error t0
                    /\ exists c, fst (action t0 c) = Returns (result t))
                   \/ (status t = FAILED /\ result t = result t0
                       /\ exists c msg, fst (action t0 c) = Raises msg
                                        /\ error t = Some msg))).
Proof.
  intros Hw Hnd Hrun Hend.
  destruct (execute_workflow_spec e wn ctx w Hw Hnd)
    as (st & HI & [[_ Hrun']|(_ & _ & Hrun')]);
    rewrite Hrun' in Hrun; injection Hrun as <-; simpl in Hend; [discriminate|].
  injection Hend as <-. exists (workflow st). cbn [engine_after workflows events].
  split; [apply lookup_insert_eq|]. split; [apply (inv_keys _ _ HI)|]. split.
  - intros n Hn. apply remaining_spec in Hn as [_ Hn]. now apply (inv_untouched _ _ HI).
  - intros n Hkey Hn.
    assert (HnE : n ∈ executed_tasks st).
    { destruct (decide (n ∈ executed_tasks st)) as [|Hno]; [assumption|].
      exfalso. apply Hn, remaining_spec. now rewrite (inv_keys _ _ HI). }
    split; [now apply (inv_logged _ _ HI)|].
    destruct (inv_resolved _ st HI n HnE) as (t0 & t & H0 & _ & Ht & Hres & _).
    exists t0, t. split; [exact H0|]. split; [exact Ht|].
    destruct Hres as [c c' v Hact ->|c c' msg Hact ->]; simpl.
    + left. repeat split. exists c. now rewrite Hact.
    + right. repeat split. exists c, msg. now rewrite Hact.
Qed.

(** ** Reachable states *)

Lemma try_states_last n task st :
  List.last (try_states n task st) st = try_block n task st.
Proof.
  unfold try_states, try_block, begin_task.
  now destruct (action task _) as [[v|msg] c].
Qed.

Lemma Inv_resolved_status d0 st m :
  Inv d0 st -> m ∈ executed_tasks st ->
  exists tm, dict_get m (tasks (workflow st)) = Some tm
    /\ (status tm = COMPLETED \/ status tm = FAILED).
Proof.
  intros HI Hm. destruct (inv_resolved d0 st HI m Hm) as (t0 & t & _ & _ & Ht & Hres & _).
  exists t. split; [exact Ht|]. eapply resolved_status; eauto.
Qed.





Lemma Inv_not_terminal d0 st n task :
  Inv d0 st -> dict_get n (tasks (workflow st)) = Some task ->
  is_terminal (status task) = false -> n ∉ executed_tasks st.
Proof.
  intros HI Hget Hterm Hin.
  destruct (Inv_resolved_status d0 st n HI Hin) as (t & Ht & Hst).
  rewrite Hget in Ht. injection Ht as <-.
  destruct Hst as [E|E]; rewrite E in Hterm; discriminate.
Qed.





(** The state a call ends in is one of [execute_states]. *)
Lemma for_body_final acc n :
  fst (for_body acc n) = fst acc \/ In (fst (for_body acc n)) (for_body_states acc n).
Proof.
  destruct acc as [st p]. unfold for_body, for_body_states.
  destruct (dict_get n (tasks (workflow st))) as [task|]; [|now left].
  destruct (is_terminal (status task)); [now left|].
  destruct (deps_met task st); [|now left].
  right. cbn [fst]. rewrite <- (try_states_last n task st).
  unfold try_states. destruct (action task _) as [[v|msg] c]; cbn; tauto.
Qed.

Lemma scan_states_final l acc :
  fst (fold_left for_body l acc) = fst acc
  \/ In (fst (fold_left for_body l acc)) (scan_states l acc).
Proof.
  revert acc. induction l as [|n l IH]; intros acc; [now left|].
  cbn [fold_left scan_states].
  destruct (IH (for_body acc n)) as [Heq|Hin].
  - rewrite Heq. destruct (for_body_final acc n) as [Heq'|Hin']; [now left|].
    right. apply in_app_iff. now left.
  - right. apply in_app_iff. now right.
Qed.

Lemma while_states_final fuel st st' ex :
  while_loop fuel st = Some (st', ex) -> st' = st \/ In st' (while_states fuel st).
Proof.
  revert st. induction fuel as [|fuel IH]; intros st; cbn [while_loop while_states];
    [discriminate|].
  destruct (Nat.ltb _ _); [|intros [= <- _]; now left].
  pose proof (scan_states_final (dict_keys (tasks (workflow st))) (st, false)) as Hscan.
  fold (scan st) in Hscan. destruct (scan st) as [st1 [|]]; cbn [fst] in Hscan.
  - intros Hrun. destruct (IH st1 Hrun) as [->|Hin].
    + destruct Hscan as [->|Hin']; [now left|]. right. apply in_app_iff. now left.
    + right. apply in_app_iff. now right.
  - intros [= <- _]. destruct Hscan as [->|Hin']; [now left|].
    right. apply in_app_iff. now left.
Qed.

Lemma execute_states_final e wn ctx w o :
  workflows e !! wn = Some w ->
  execute_workflow wn ctx e = Some o ->
  exists s,
    In s (execute_states wn ctx e)
    /\ workflows (engine_after o) !! wn = Some (workflow s)
    /\ match ended o with
       | Return report => report = collect_results (workflow s)
       | Raise ex => ex = RuntimeError_cannot_execute (remaining s)
       end.
Proof.
  intros Hw. unfold execute_workflow, execute_states. rewrite Hw. cbv zeta.
  destruct (while_loop _ _) as [[st ex]|] eqn:Hloop; [|discriminate].
  assert (Hin : In st (mkState w ∅ (default [] ctx) [InfoExecutingWorkflow wn]
                       :: while_states (S (length (tasks w)))
                            (mkState w ∅ (default [] ctx) [InfoExecutingWorkflow wn]))).
  { destruct (while_states_final _ _ _ _ Hloop) as [->|H]; [now left|now right]. }
  destruct ex as [|ex]; intros [= <-]; exists st; cbn [engine_after workflows ended].
  - split; [exact Hin|]. split; [apply lookup_insert_eq|reflexivity].
  - split; [exact Hin|]. split; [apply lookup_insert_eq|].
    revert Hloop. generalize (S (length (tasks w))).
    intros fuel. generalize (mkState w ∅ (default [] ctx) [InfoExecutingWorkflow wn]).
    induction fuel as [|fuel IH]; intros st0; cbn [while_loop]; [discriminate|].
    destruct (Nat.ltb _ _); [|discriminate].
    destruct (scan st0) as [st1 [|]]; [apply IH|]. now intros [= <- <-].
Qed.

(** ** Unregistered names, empty workflows, repeated execution *)

(** C2: the order-processing workflow of the example calls its actions in
    the order validate, payment, fulfill and returns all three tasks
    [completed], each with the value its action returned and no error. *)
Theorem order_processing_example ctx :
  (fun o => (invoked (events o), ended o))
    <$> execute_workflow "order_processing" ctx order_engine
  = Some (["validate"; "payment"; "fulfill"],
          Return [("validate", mkEntry "completed" (PyDict [("valid", PyBool true)]) None);
                  ("payment", mkEntry "completed" (PyDict [("payment_id", PyStr "pay_123")]) None);
                  ("fulfill", mkEntry "completed" (PyDict [("shipped", PyBool true)]) None)]).
Proof. vm_compute. reflexivity. Qed.

Lemma while_loop_raises fuel st st' ex :
  while_loop fuel st = Some (st', LoopRaise ex) ->
  exists rem, ex = RuntimeError_cannot_execute rem.
Proof.
  revert st. induction fuel as [|fuel IH]; intros st; cbn [while_loop]; [discriminate|].
  destruct (Nat.ltb _ _); [|discriminate].
  destruct (scan st) as [st1 [|]]; [apply IH|].
  intros [= _ <-]. eauto.
Qed.

(** C5: a call with a name that is not registered raises the not-found
    error at once: no event is logged, so no task is started, the engine is
    as it was and no report is returned.  It is the only such failure: a
    call that ends with the not-found error was made with an unregistered
    name. *)
Theorem unregistered_name_raises_not_found e wn ctx :
  workflows e !! wn = None ->
  execute_workflow wn ctx e = Some (mkOutcome e [] (Raise (ValueError_not_found wn)))
  /\ execute_states wn ctx e = []
  /\ forall e' wn' ctx' o m,
       execute_workflow wn' ctx' e' = Some o ->
       ended o = Raise (ValueError_not_found m) ->
       workflows e' !! wn' = None /\ m = wn'.
Proof.
  intros Hw. unfold execute_workflow, execute_states. rewrite Hw.
  split; [reflexivity|]. split; [reflexivity|].
  intros e' wn' ctx' o m. destruct (workflows e' !! wn') as [w'|].
  - destruct (while_loop _ _) as [[st [|ex]]|] eqn:Hloop; intros [= <-]; simpl;
      [discriminate|].
    apply while_loop_raises in Hloop as [rem ->]. discriminate.
  - intros [= <-]. simpl. intros [= <-]. auto.
Qed.

(** C9: a registered workflow without tasks returns the empty report at
    once: the only events are the start and the completion summary, no task
    is started, nothing is raised and the engine is as it was. *)
Theorem empty_workflow_returns_empty_report e wn ctx w :
  workflows e !! wn = Some w ->
  tasks w = [] ->
  execute_workflow wn ctx e
  = Some (mkOutcome e [InfoExecutingWorkflow wn; InfoWorkflowCompleted wn 0 0]
            (Return [])).
Proof.
  intros Hw Ht. unfold execute_workflow. rewrite Hw.
  destruct w as [n d ts]. simpl in Ht. subst ts.
  cbn. rewrite insert_id by exact Hw. now destruct e.
Qed.

(** C7, what the code does: executing the order-processing workflow a
    second time, when all its tasks are [COMPLETED], starts no task and
    raises the cannot-execute error naming every task, instead of returning
    the report. *)
Theorem reexecution_raises_cannot_execute :
  (fun o => (invoked (events o), ended o))
    <$> execute_workflow "order_processing" None order_engine_after_run
  = Some ([], Raise (RuntimeError_cannot_execute ["validate"; "payment"; "fulfill"])).
Proof. vm_compute. reflexivity. Qed.

(** C6, the claim as stated fails: a task whose action returns [None] is
    reported [completed] with no result. *)
Lemma completed_with_null_result :
  exists o report,
    execute_workflow "notify" None (engine_with notify_workflow) = Some o
    /\ ended o = Return report
    /\ ~ result_iff_completed report.
Proof.
  eexists _, _. split; [vm_compute; reflexivity|]. split; [reflexivity|].
  intros H. destruct (H "notify" _ eq_refl) as [[_ H1] _].
  apply H1; reflexivity.
Qed.

(** The loop never hits its iteration bound. *)
Lemma execute_workflow_total e wn ctx :
  (forall w, workflows e !! wn = Some w -> List.NoDup (dict_keys (tasks w))) ->
  exists o, execute_workflow wn ctx e = Some o.
Proof.
  intros Hnd. destruct (workflows e !! wn) as [w|] eqn:Hw.
  - destruct (execute_workflow_spec e wn ctx w Hw (Hnd w eq_refl))
      as (st & _ & [[_ Hrun]|(_ & _ & Hrun)]); eauto.
  - unfold execute_workflow. rewrite Hw. eauto.
Qed.

Lemma add_task_NoDup n a deps w :
  List.NoDup (dict_keys (tasks w)) ->
  List.NoDup (dict_keys (tasks (add_task n a deps w))).
Proof. apply dict_set_NoDup. Qed.

(** A scan over a table whose tasks are all terminal changes nothing. *)
Lemma scan_all_terminal l st p :
  Forall (fun kv => is_terminal (status (snd kv)) = true) (tasks (workflow st)) ->
  fold_left for_body l (st, p) = (st, p).
Proof.
  intros Hall. induction l as [|n l IH]; [reflexivity|].
  cbn [fold_left].
  assert (Hstep : for_body (st, p) n = (st, p)).
  { unfold for_body. destruct (dict_get n (tasks (workflow st))) as [t|] eqn:Hget; [|reflexivity].
    apply dict_get_In in Hget. rewrite List.Forall_forall in Hall.
    specialize (Hall (n, t) Hget). simpl in Hall. now rewrite Hall. }
  now rewrite Hstep.
Qed.

(** What the code does with a workflow whose tasks are all terminal when
    the call begins (a second execution, for one): unless the workflow is
    empty, no task is started and the cannot-execute error names every
    task. *)
Lemma all_terminal_raises e wn ctx w :
  workflows e !! wn = Some w ->
  tasks w <> [] ->
  Forall (fun kv => is_terminal (status (snd kv)) = true) (tasks w) ->
  exists o,
    execute_workflow wn ctx e = Some o
    /\ invoked (events o) = []
    /\ ended o = Raise (RuntimeError_cannot_execute (dict_keys (tasks w))).
Proof.
  intros Hw Hne Hall. unfold execute_workflow. rewrite Hw. cbn [while_loop].
  cbn [executed_tasks workflow]. rewrite size_empty.
  destruct (tasks w) as [|kv d] eqn:Hd; [contradiction|]. cbn [length Nat.ltb Nat.leb].
  unfold scan. rewrite scan_all_terminal by (cbn [workflow]; now rewrite Hd).
  eexists. split; [reflexivity|]. cbn [events ended logged]. split; [reflexivity|].
  unfold remaining. cbn [workflow executed_tasks]. rewrite Hd. do 2 f_equal.
  apply forallb_filter_id, forallb_forall. intros n _.
  apply negb_true_iff, bool_decide_eq_false. set_solver.
Qed.

(** ** The examples of the specification *)

Example failing_payment_run :
  (fun o => (invoked (events o), ended o))
    <$> execute_workflow "order_processing" None (engine_with order_with_failing_payment)
  = Some (["validate"; "payment"; "fulfill"],
          Return [("validate", mkEntry "completed" (PyDict [("valid", PyBool true)]) None);
                  ("payment", mkEntry "failed" PyNone (Some "card declined"));
                  ("fulfill", mkEntry "completed" (PyDict [("shipped", PyBool true)]) None)]).
Proof. vm_compute. reflexivity. Qed.

Example cyclic_run :
  (fun o => (invoked (events o), ended o))
    <$> execute_workflow "cyclic" None (engine_with cyclic_workflow)
  = Some ([], Raise (RuntimeError_cannot_execute ["A"; "B"])).
Proof. vm_compute. reflexivity. Qed.

Example dangling_run :
  (fun o => (invoked (events o), ended o))
    <$> execute_workflow "dangling" None (engine_with dangling_workflow)
  = Some (["validate"], Raise (RuntimeError_cannot_execute ["ship"])).
Proof. vm_compute. reflexivity. Qed.

(** After the failed call the engine holds the partly executed workflow. *)
Example dangling_state_after :
  (fun o => (fun w => map (fun kv => (fst kv, status (snd kv), result (snd kv), error (snd kv)))
                        (tasks w))
              <$> workflows (engine_after o) !! "dangling")
    <$> execute_workflow "dangling" None (engine_with dangling_workflow)
  = Some (Some [("validate", COMPLETED, PyDict [("valid", PyBool true)], None);
                ("ship", PENDING, PyNone, None)]).
Proof. vm_compute. reflexivity. Qed.

Example unregistered_run :
  execute_workflow "nonexistent" None order_engine
  = Some (mkOutcome order_engine [] (Raise (ValueError_not_found "nonexistent"))).
Proof. reflexivity. Qed.

Lemma concrete_NoDup (l : list string) : bool_decide (NoDup l) = true -> List.NoDup l.
Proof. intros H. apply NoDup_ListNoDup. now apply bool_decide_eq_true in H. Qed.

Lemma order_processing_ready :
  workflows order_engine !! "order_processing" = Some order_processing
  /\ List.NoDup (dict_keys (tasks order_processing))
  /\ all_pending (tasks order_processing)
  /\ deps_defined (tasks order_processing)
  /\ acyclic (tasks order_processing).
Proof.
  split; [reflexivity|]. split; [apply concrete_NoDup; reflexivity|].
  split; [repeat constructor|]. split; [apply deps_definedb_spec; reflexivity|].
  apply (rankedb_acyclic order_rank). reflexivity.
Qed.

Lemma failing_payment_ready :
  workflows (engine_with order_with_failing_payment) !! "order_processing"
    = Some order_with_failing_payment
  /\ List.NoDup (dict_keys (tasks order_with_failing_payment))
  /\ all_pending (tasks order_with_failing_payment)
  /\ deps_defined (tasks order_with_failing_payment)
  /\ acyclic (tasks order_with_failing_payment).
Proof.
  split; [reflexivity|]. split; [apply concrete_NoDup; reflexivity|].
  split; [repeat constructor|]. split; [apply deps_definedb_spec; reflexivity|].
  apply (rankedb_acyclic order_rank). reflexivity.
Qed.

Lemma cyclic_workflow_unrunnable : unrunnable (tasks cyclic_workflow) "A".
Proof.
  left. apply tc_l with (y := "B").
  - eexists. split; [reflexivity|]. now left.
  - apply tc_once. eexists. split; [reflexivity|]. now left.
Qed.

(** ** The theorems at concrete workflows *)

Lemma execute_workflow_terminates_with_full_report_witness :
  (workflows order_engine !! "order_processing" = Some order_processing
   /\ List.NoDup (dict_keys (tasks order_processing))
   /\ all_pending (tasks order_processing)
   /\ deps_defined (tasks order_processing)
   /\ acyclic (tasks order_processing))
  /\ exists o report,
       execute_workflow "order_processing" None order_engine = Some o
       /\ ended o = Return report
       /\ dict_keys report = dict_keys (tasks order_processing)
       /\ forall n, In n (dict_keys (tasks order_processing)) ->
            exists en, dict_get n report = Some en
              /\ (entry_status en = "completed" \/ entry_status en = "failed").
Proof.
  split; [exact order_processing_ready|].
  destruct order_processing_ready as (H1 & H2 & H3 & H4 & H5).
  exact (execute_workflow_terminates_with_full_report
           order_engine "order_processing" None order_processing H1 H2 H3 H4 H5).
Defined.


Lemma cycle_or_missing_dependency_raises_witness :
  (workflows (engine_with cyclic_workflow) !! "cyclic" = Some cyclic_workflow
   /\ List.NoDup (dict_keys (tasks cyclic_workflow))
   /\ unrunnable (tasks cyclic_workflow) "A")
  /\ exists o rem w',
       execute_workflow "cyclic" None (engine_with cyclic_workflow) = Some o
       /\ ended o = Raise (RuntimeError_cannot_execute rem)
       /\ workflows (engine_after o) !! "cyclic" = Some w'
       /\ In "A" rem
       /\ (forall n, tc (depends_on (tasks cyclic_workflow)) n "A" -> In n rem)
       /\ (forall n, In n rem <->
                     In n (dict_keys (tasks cyclic_workflow))
                     /\ ~ In n (invoked (events o)))
       /\ (all_pending (tasks cyclic_workflow) ->
           rem = dict_keys (List.filter
                              (fun kv => negb (is_terminal (status (snd kv))))
                              (tasks w'))).
Proof.
  assert (H1 : workflows (engine_with cyclic_workflow) !! "cyclic" = Some cyclic_workflow)
    by reflexivity.
  assert (H2 : List.NoDup (dict_keys (tasks cyclic_workflow)))
    by (apply concrete_NoDup; reflexivity).
  split; [repeat split; solve [assumption|exact cyclic_workflow_unrunnable]|].
  exact (cycle_or_missing_dependency_raises
           (engine_with cyclic_workflow) "cyclic" None cyclic_workflow "A"
           H1 H2 cyclic_workflow_unrunnable).
Defined.

Lemma unregistered_name_raises_not_found_witness :
  workflows order_engine !! "nonexistent" = None
  /\ execute_workflow "nonexistent" None order_engine
     = Some (mkOutcome order_engine [] (Raise (ValueError_not_found "nonexistent")))
  /\ execute_states "nonexistent" None order_engine = []
  /\ forall e' wn' ctx' o m,
       execute_workflow wn' ctx' e' = Some o ->
       ended o = Raise (ValueError_not_found m) ->
       workflows e' !! wn' = None /\ m = wn'.
Proof.
  split; [reflexivity|].
  exact (unregistered_name_raises_not_found order_engine "nonexistent" None eq_refl).
Defined.

Lemma report_result_and_error_witness :
  exists o report,
    (workflows (engine_with order_with_failing_payment) !! "order_processing"
       = Some order_with_failing_payment
     /\ List.NoDup (dict_keys (tasks order_with_failing_payment))
     /\ all_fresh (tasks order_with_failing_payment)
     /\ execute_workflow "order_processing" None (engine_with order_with_failing_payment)
        = Some o
     /\ ended o = Return report)
    /\ forall n en,
         dict_get n report = Some en ->
         (entry_status en = "completed" \/ entry_status en = "failed")
         /\ (entry_error en <> None <-> entry_status en = "failed")
         /\ (entry_result en <> PyNone -> entry_status en = "completed")
         /\ (entry_status en = "completed" ->
               entry_error en = None
               /\ exists t c, dict_get n (tasks order_with_failing_payment) = Some t
                    /\ fst (action t c) = Returns (entry_result en))
         /\ (entry_status en = "failed" -> entry_result en = PyNone)
         /\ ~ (entry_result en <> PyNone /\ entry_error en <> None).
Proof.
  pose proof failing_payment_run as Hex.
  destruct (execute_workflow "order_processing" None
              (engine_with order_with_failing_payment)) as [o|] eqn:Hrun;
    [|discriminate Hex].
  injection Hex as _ Hend.
  assert (H1 : workflows (engine_with order_with_failing_payment) !! "order_processing"
               = Some order_with_failing_payment) by reflexivity.
  assert (H2 : List.NoDup (dict_keys (tasks order_with_failing_payment)))
    by (apply concrete_NoDup; reflexivity).
  assert (H3 : all_fresh (tasks order_with_failing_payment)) by (repeat constructor).
  eexists o, _. split; [repeat split; solve [assumption|exact Hend]|].
  exact (report_result_and_error
           (engine_with order_with_failing_payment) "order_processing" None
           order_with_failing_payment o _ H1 H2 H3 Hrun Hend).
Defined.


Lemma empty_workflow_returns_empty_report_witness :
  (workflows (engine_with empty_workflow) !! "empty" = Some empty_workflow
   /\ tasks empty_workflow = [])
  /\ execute_workflow "empty" None (engine_with empty_workflow)
     = Some (mkOutcome (engine_with empty_workflow)
               [InfoExecutingWorkflow "empty"; InfoWorkflowCompleted "empty" 0 0]
               (Return [])).
Proof.
  split; [split; reflexivity|].
  exact (empty_workflow_returns_empty_report
           (engine_with empty_workflow) "empty" None empty_workflow eq_refl eq_refl).
Defined.

Lemma deadlock_keeps_partial_results_witness :
  exists o,
    (workflows (engine_with dangling_workflow) !! "dangling" = Some dangling_workflow
     /\ List.NoDup (dict_keys (tasks dangling_workflow))
     /\ execute_workflow "dangling" None (engine_with dangling_workflow) = Some o
     /\ ended o = Raise (RuntimeError_cannot_execute ["ship"]))
    /\ exists w',
         workflows (engine_after o) !! "dangling" = Some w'
         /\ dict_keys (tasks w') = dict_keys (tasks dangling_workflow)
         /\ (forall n, In n ["ship"] ->
               dict_get n (tasks w') = dict_get n (tasks dangling_workflow))
         /\ (forall n, In n (dict_keys (tasks dangling_workflow)) -> ~ In n ["ship"] ->
               In n (invoked (events o))
               /\ exists t0 t,
                    dict_get n (tasks dangling_workflow) = Some t0
                    /\ dict_get n (tasks w') = Some t
                    /\ ((status t = COMPLETED /\ error t = error t0
                         /\ exists c, fst (action t0 c) = Returns (result t))
                        \/ (status t = FAILED /\ result t = result t0
                            /\ exists c msg, fst (action t0 c) = Raises msg
                                             /\ error t = Some msg))).
Proof.
  pose proof dangling_run as Hex.
  destruct (execute_workflow "dangling" None (engine_with dangling_workflow))
    as [o|] eqn:Hrun; [|discriminate Hex].
  injection Hex as _ Hend.
  assert (H1 : workflows (engine_with dangling_workflow) !! "dangling"
               = Some dangling_workflow) by reflexivity.
  assert (H2 : List.NoDup (dict_keys (tasks dangling_workflow)))
    by (apply concrete_NoDup; reflexivity).
  exists o. split; [repeat split; assumption|].
  exact (deadlock_keeps_partial_results
           (engine_with dangling_workflow) "dangling" None dangling_workflow o ["ship"]
           H1 H2 Hrun Hend).
Defined.

(** * Further properties of the engine *)

(** ** Building workflows *)

Lemma dict_get_set_ne {V} k k' (v : V) d :
  k <> k' -> dict_get k' (dict_set k v d) = dict_get k' d.
Proof.
  intros Hne. induction d as [|[k0 v0] d IH]; simpl.
  - destruct (String.eqb_spec k' k); [congruence|reflexivity].
  - destruct (String.eqb_spec k k0) as [->|Hne0]; simpl.
    + destruct (String.eqb_spec k' k0); [congruence|reflexivity].
    + destruct (String.eqb_spec k' k0); [reflexivity|exact IH].
Qed.

Lemma dict_set_Forall {V} (P : string * V -> Prop) k v (d : pydict V) :
  (forall k', P (k', v)) -> Forall P d -> Forall P (dict_set k v d).
Proof.
  intros Hv. induction 1 as [|[k0 v0] d H0 Hd IH]; simpl.
  - constructor; [apply Hv|constructor].
  - destruct (String.eqb k k0); constructor; auto.
Qed.

(** X1: [add_task] followed by [get_task] of the same name gives the task
    as [add_task] made it: pending, without result or error, with the name,
    action and dependencies given, the dependencies being the empty list
    when none were given; whatever the workflow held under that name
    before. *)
Theorem add_task_get_task n a deps w :
  get_task n (add_task n a deps w)
  = Some (mkTask n a (default [] deps) PENDING PyNone None).
Proof. unfold get_task, add_task. simpl. apply dict_get_set_eq. Qed.

(** X2: [add_task] leaves every other task as it was, and keeps the order
    of the table: a name already present keeps its place (the table keeps
    its length), a new name goes to the end. *)
Theorem add_task_other_tasks n a deps w :
  (forall m, m <> n -> get_task m (add_task n a deps w) = get_task m w)
  /\ (In n (dict_keys (tasks w)) ->
      dict_keys (tasks (add_task n a deps w)) = dict_keys (tasks w))
  /\ (~ In n (dict_keys (tasks w)) ->
      dict_keys (tasks (add_task n a deps w)) = (dict_keys (tasks w) ++ [n])%list).
Proof.
  unfold get_task, add_task. simpl. split; [|split].
  - intros m Hm. apply dict_get_set_ne. congruence.
  - intros Hin. rewrite dict_keys_set.
    destruct (existsb (String.eqb n) (dict_keys (tasks w))) eqn:Hex; [reflexivity|].
    exfalso. apply Bool.not_true_iff_false in Hex. apply Hex.
    apply existsb_exists. exists n. split; [exact Hin|apply String.eqb_refl].
  - intros Hnin. rewrite dict_keys_set.
    destruct (existsb (String.eqb n) (dict_keys (tasks w))) eqn:Hex; [|reflexivity].
    exfalso. apply existsb_exists in Hex as (k & Hk & Heq).
    apply String.eqb_eq in Heq. now subst.
Qed.

(** X3: a workflow built by [Workflow(...)] and any sequence of [add_task]
    calls has pairwise distinct task names, each task stored under its own
    name, and only fresh tasks (pending, no result, no error). *)
Theorem built_workflow_well_formed w :
  built w ->
  List.NoDup (dict_keys (tasks w))
  /\ all_fresh (tasks w)
  /\ Forall (fun kv => name (snd kv) = fst kv) (tasks w).
Proof.
  induction 1 as [n d|n a deps w Hb (Hnd & Hfresh & Hname)].
  - simpl. split; [constructor|]. split; constructor.
  - split; [now apply add_task_NoDup|]. unfold add_task. simpl. split.
    + apply dict_set_Forall; [|exact Hfresh]. intros k'. simpl. auto.
    + clear Hnd Hfresh Hb. induction Hname as [|[k0 t0] d H0 Hd IH]; simpl.
      * constructor; [reflexivity|constructor].
      * destruct (String.eqb_spec n k0) as [->|Hne]; constructor; auto.
Qed.

(** X4: [get_task] answers [None] exactly for the names that are not in the
    workflow; it never fails. *)
Theorem get_task_none_iff n w :
  get_task n w = None <-> ~ In n (dict_keys (tasks w)).
Proof.
  unfold get_task. split.
  - intros Hnone Hin. apply dict_key_get in Hin as [t Ht]. congruence.
  - apply dict_get_None.
Qed.

(** ** Registration *)

(** X5: [register_workflow] stores the workflow under its own name and
    leaves the other names alone; registering a second workflow under a
    name replaces the first, so that the engine, and with it every later
    call, is the same as if the first had never been registered. *)
Theorem register_workflow_overwrites w1 w2 e :
  workflows (fst (register_workflow w2 e)) !! wf_name w2 = Some w2
  /\ (forall n, n <> wf_name w2 ->
        workflows (fst (register_workflow w2 e)) !! n = workflows e !! n)
  /\ (wf_name w1 = wf_name w2 ->
      fst (register_workflow w2 (fst (register_workflow w1 e)))
      = fst (register_workflow w2 e)).
Proof.
  unfold register_workflow. simpl. split; [|split].
  - apply lookup_insert_eq.
  - intros n Hn. apply lookup_insert_ne. congruence.
  - intros ->. f_equal. apply insert_insert_eq.
Qed.

(** ** What a call leaves alone *)

(** X6: a call of [execute_workflow] leaves the workflows registered under
    other names as they were, and the set of registered names unchanged. *)
Theorem execute_workflow_other_workflows e wn ctx o :
  execute_workflow wn ctx e = Some o ->
  (forall wn', wn' <> wn ->
     workflows (engine_after o) !! wn' = workflows e !! wn')
  /\ dom (workflows (engine_after o)) = dom (workflows e).
Proof.
  unfold execute_workflow.
  destruct (workflows e !! wn) as [w|] eqn:Hw.
  - assert (Hdom : forall w', dom (<[wn := w']> (workflows e)) = dom (workflows e)).
    { intros w'. rewrite dom_insert_L.
      assert (wn ∈ dom (workflows e)) by (apply elem_of_dom; eauto). set_solver. }
    destruct (while_loop _ _) as [[st [|ex]]|]; intros [= <-]; simpl;
      (split; [intros wn' Hne; apply lookup_insert_ne; congruence|apply Hdom]).
  - intros [= <-]. simpl. auto.
Qed.

Lemma NoDup_snoc {A} (l : list A) x :
  List.NoDup l -> ~ In x l -> List.NoDup (l ++ [x]).
Proof.
  intros Hl Hx. apply NoDup_ListNoDup, NoDup_app.
  split; [now apply NoDup_ListNoDup|]. split; [|apply NoDup_singleton].
  intros y Hy Hy'. apply list_elem_of_singleton in Hy'. subst y.
  apply Hx. now apply list_elem_of_In.
Qed.

Lemma snoc_split {A} (l1 l2 l : list A) x n :
  (l1 ++ x :: l2 = l ++ [n])%list ->
  (l2 = [] /\ x = n /\ l1 = l)
  \/ exists l2', l2 = (l2' ++ [n])%list /\ l = (l1 ++ x :: l2')%list.
Proof.
  destruct l2 as [|y l2 _] using rev_ind; intros H.
  - left. apply app_inj_tail in H as [-> ->]. auto.
  - right. exists l2. rewrite app_comm_cons, app_assoc in H.
    apply app_inj_tail in H as [<- ->]. auto.
Qed.

Lemma map_task_static_alter f n d :
  (forall t, name (f t) = name t /\ action (f t) = action t
             /\ dependencies (f t) = dependencies t) ->
  map task_static (dict_alter f n d) = map task_static d.
Proof.
  intros Hf. unfold dict_alter. rewrite map_map. apply map_ext.
  intros [k t]. simpl. destruct (String.eqb n k); [|reflexivity].
  unfold task_static. simpl. destruct (Hf t) as (-> & -> & ->). reflexivity.
Qed.

(** The cases of one iteration of the [for] loop. *)
Lemma for_body_cases d0 st p n :
  Inv d0 st ->
  for_body (st, p) n = (st, p)
  \/ exists task,
       dict_get n d0 = Some task
       /\ dict_get n (tasks (workflow st)) = Some task
       /\ is_terminal (status task) = false
       /\ deps_met task st = true
       /\ (n ∉ executed_tasks st)
       /\ for_body (st, p) n = (try_block n task st, true).
Proof.
  intros HI. unfold for_body.
  destruct (dict_get n (tasks (workflow st))) as [task|] eqn:Hget; [|now left].
  destruct (is_terminal (status task)) eqn:Hterm; [now left|].
  destruct (deps_met task st) eqn:Hmet; [|now left].
  right. exists task.
  assert (Hn : n ∉ executed_tasks st) by (eapply Inv_not_terminal; eauto).
  rewrite <- (inv_untouched d0 st HI n Hn). auto 10.
Qed.

Section Preserved.
Variable d0 : pydict Task.
Hypothesis d0_keys : List.NoDup (dict_keys d0).
Variable P : State -> Prop.
Hypothesis P_step : forall st n task,
  Inv d0 st -> P st ->
  dict_get n d0 = Some task ->
  dict_get n (tasks (workflow st)) = Some task ->
  deps_met task st = true ->
  n ∉ executed_tasks st ->
  P (try_block n task st).

Lemma fold_for_body_preserved l st p :
  Inv d0 st -> P st -> P (fst (fold_left for_body l (st, p))).
Proof.
  revert st p. induction l as [|n l IH]; intros st p HI HP; [exact HP|].
  cbn [fold_left].
  pose proof (for_body_spec d0 d0_keys st p n HI) as [HI1 _]. cbv zeta in HI1.
  destruct (for_body_cases d0 st p n HI) as [->|(task & H0 & Hget & _ & Hmet & Hn & Heq)].
  - now apply IH.
  - rewrite Heq in *. cbn [fst] in HI1. apply IH; [exact HI1|]. now apply P_step.
Qed.

Lemma while_loop_preserved fuel st st' ex :
  Inv d0 st -> P st -> while_loop fuel st = Some (st', ex) -> P st'.
Proof.
  revert st. induction fuel as [|fuel IH]; intros st HI HP; cbn [while_loop];
    [discriminate|].
  destruct (Nat.ltb _ _); [|now intros [= <- _]].
  pose proof (fold_for_body_spec d0 d0_keys (dict_keys (tasks (workflow st))) st false HI)
    as (HI1 & _).
  pose proof (fold_for_body_preserved (dict_keys (tasks (workflow st))) st false HI HP)
    as HP1.
  cbv zeta in HI1. fold (scan st) in HI1, HP1.
  destruct (scan st) as [st1 [|]]; cbn [fst] in HI1, HP1.
  - now apply IH.
  - now intros [= <- _].
Qed.
End Preserved.

Lemma try_block_context n task st :
  context (try_block n task st) = snd (action task (context st)).
Proof.
  unfold try_block, begin_task. simpl.
  now destruct (action task (context st)) as [[v|msg] c].
Qed.

Lemma try_block_static n task st :
  map task_static (tasks (workflow (try_block n task st)))
  = map task_static (tasks (workflow st))
  /\ wf_name (workflow (try_block n task st)) = wf_name (workflow st)
  /\ description (workflow (try_block n task st)) = description (workflow st).
Proof.
  unfold try_block, begin_task. simpl.
  destruct (action task (context st)) as [[v|msg] c]; simpl;
    (split; [|split; reflexivity]);
    rewrite !map_task_static_alter by (intros t; simpl; auto); reflexivity.
Qed.

Lemma run_actions_snoc d l n c :
  run_actions d (l ++ [n]) c
  = match dict_get n d with
    | Some t => snd (action t (run_actions d l c))
    | None => run_actions d l c
    end.
Proof. unfold run_actions. now rewrite fold_left_app. Qed.

Lemma LogInv_step w0 c0 st n task :
  Inv (tasks w0) st -> LogInv w0 c0 st ->
  dict_get n (tasks w0) = Some task ->
  dict_get n (tasks (workflow st)) = Some task ->
  deps_met task st = true ->
  n ∉ executed_tasks st ->
  LogInv w0 c0 (try_block n task st).
Proof.
  intros HI HL H0 Hget Hmet Hn.
  destruct (try_block_spec n task st Hget) as (_ & _ & _ & _ & Hlog).
  destruct (try_block_static n task st) as (Hst & Hnm & Hds).
  assert (Hfresh : ~ In n (invoked (logged st)))
    by (intros Hin; apply Hn; now apply (inv_logged _ _ HI)).
  split.
  - rewrite Hlog. apply NoDup_snoc; [apply (log_nodup _ _ _ HL)|exact Hfresh].
  - rewrite Hlog. intros l1 x l2 Heq m Hdep.
    symmetry in Heq. apply snoc_split in Heq as [(-> & -> & ->)|(l2' & -> & Hl)].
    + destruct Hdep as (t & Ht & Hm). rewrite H0 in Ht. injection Ht as <-.
      apply (inv_logged _ _ HI). now apply (deps_met_spec task st).
    + eapply (log_ordered _ _ _ HL); eauto.
  - rewrite Hlog, run_actions_snoc, H0, try_block_context.
    now rewrite (log_context _ _ _ HL).
  - rewrite Hst. apply (log_static _ _ _ HL).
  - rewrite Hnm, Hds. apply (log_name _ _ _ HL).
Qed.

Lemma LogInv_init w c wn :
  LogInv w c (mkState w ∅ c [InfoExecutingWorkflow wn]).
Proof.
  split; simpl; auto.
  - constructor.
  - intros l1 n l2 Heq. destruct l1; discriminate.
Qed.

(** A call on a registered workflow, with everything the invariants say of
    the state the loop is left in. *)
Lemma execute_workflow_final e wn ctx w o :
  workflows e !! wn = Some w ->
  List.NoDup (dict_keys (tasks w)) ->
  execute_workflow wn ctx e = Some o ->
  exists st,
    Inv (tasks w) st /\ LogInv w (default [] ctx) st
    /\ final_state wn ctx e = Some st
    /\ workflows (engine_after o) !! wn = Some (workflow st)
    /\ invoked (events o) = invoked (logged st)
    /\ ((length (tasks w) <= size (executed_tasks st)
         /\ ended o = Return (collect_results (workflow st)))
        \/ (size (executed_tasks st) < length (tasks w)
            /\ ended o = Raise (RuntimeError_cannot_execute (remaining st)))).
Proof.
  intros Hw Hnd. unfold execute_workflow, final_state. rewrite Hw. cbv zeta.
  set (st0 := mkState w ∅ (default [] ctx) [InfoExecutingWorkflow wn]).
  assert (HI0 : Inv (tasks w) st0) by (apply Inv_init; solve [assumption|reflexivity]).
  destruct (while_loop_spec (tasks w) Hnd (S (length (tasks w))) st0 HI0)
    as (st & ex & Hrun & HI & _ & Hex); [lia|].
  assert (HL : LogInv w (default [] ctx) st).
  { eapply (while_loop_preserved (tasks w) Hnd (LogInv w (default [] ctx)));
      [|exact HI0|apply LogInv_init|exact Hrun].
    intros st1 n task HI1 HP H0 Hg Hm Hn. now apply LogInv_step. }
  rewrite Hrun. destruct ex as [|ex]; cbn iota in Hex; intros [= <-]; exists st;
    cbn [engine_after workflows events ended fmap option_fmap option_map fst];
    rewrite ?invoked_completed;
    (split; [exact HI|]); (split; [exact HL|]); (split; [reflexivity|]);
    (split; [apply lookup_insert_eq|]); (split; [reflexivity|]).
  - left. auto.
  - right. destruct Hex as (-> & Hlt & _). auto.
Qed.

(** X7: a call of [execute_workflow] assigns only the status, the result
    and the error of tasks: after it, returned or raised, the workflow has
    its name and description, and its tasks have, in the same order, the
    keys, names, actions and dependencies they had. *)
Theorem execute_workflow_keeps_task_definitions e wn ctx w o :
  workflows e !! wn = Some w ->
  List.NoDup (dict_keys (tasks w)) ->
  execute_workflow wn ctx e = Some o ->
  exists w',
    workflows (engine_after o) !! wn = Some w'
    /\ wf_name w' = wf_name w
    /\ description w' = description w
    /\ map task_static (tasks w') = map task_static (tasks w).
Proof.
  intros Hw Hnd Hrun.
  destruct (execute_workflow_final e wn ctx w o Hw Hnd Hrun)
    as (st & _ & HL & _ & Hafter & _).
  exists (workflow st). split; [exact Hafter|].
  destruct (log_name _ _ _ HL) as [-> ->]. repeat split. apply (log_static _ _ _ HL).
Qed.

(** X8: a call starts no task twice, and starts only tasks of the
    workflow. *)
Theorem each_task_started_at_most_once e wn ctx w o :
  workflows e !! wn = Some w ->
  List.NoDup (dict_keys (tasks w)) ->
  execute_workflow wn ctx e = Some o ->
  List.NoDup (invoked (events o))
  /\ forall n, In n (invoked (events o)) -> In n (dict_keys (tasks w)).
Proof.
  intros Hw Hnd Hrun.
  destruct (execute_workflow_final e wn ctx w o Hw Hnd Hrun)
    as (st & HI & HL & _ & _ & -> & _).
  split; [apply (log_nodup _ _ _ HL)|].
  intros n Hn. apply (inv_logged _ _ HI) in Hn. eapply Inv_executed_key; eauto.
Qed.

(** X9: the order in which a call starts tasks is a topological order of
    the dependency graph: each task is started after every task it names
    as a dependency has been started. *)
Theorem tasks_started_in_dependency_order e wn ctx w o :
  workflows e !! wn = Some w ->
  List.NoDup (dict_keys (tasks w)) ->
  execute_workflow wn ctx e = Some o ->
  dependency_ordered (tasks w) (invoked (events o)).
Proof.
  intros Hw Hnd Hrun.
  destruct (execute_workflow_final e wn ctx w o Hw Hnd Hrun)
    as (st & _ & HL & _ & _ & -> & _).
  apply (log_ordered _ _ _ HL).
Qed.

(** X10: for a workflow whose tasks are all pending, [execute_workflow]
    returns a report exactly when the dependency graph is acyclic and names
    only tasks of the workflow; otherwise it raises. *)
Theorem returns_iff_acyclic_and_defined e wn ctx w o :
  workflows e !! wn = Some w ->
  List.NoDup (dict_keys (tasks w)) ->
  all_pending (tasks w) ->
  execute_workflow wn ctx e = Some o ->
  (exists report, ended o = Return report)
  <-> acyclic (tasks w) /\ deps_defined (tasks w).
Proof.
  intros Hw Hnd Hpend Hrun. split.
  - intros [report Hret].
    destruct (execute_workflow_final e wn ctx w o Hw Hnd Hrun)
      as (st & HI & _ & _ & _ & _ & [[Hfull _]|[_ Hraise]]); [|congruence].
    assert (Hno : forall m, ~ unrunnable (tasks w) m).
    { intros m Hm. apply (Inv_unrunnable _ st m HI Hm).
      eapply Inv_full; eauto. now apply unrunnable_key. }
    split.
    + intros n Hc. apply (Hno n). now left.
    + intros n m Hdep.
      destruct (in_dec string_dec m (dict_keys (tasks w))) as [|Hnin]; [assumption|].
      exfalso. apply (Hno n). right. eauto.
  - intros [Hacy Hdef].
    destruct (execute_workflow_returns e wn ctx w Hw Hnd Hpend Hdef Hacy)
      as (st & _ & _ & Hrun').
    rewrite Hrun' in Hrun. injection Hrun as <-. simpl. eauto.
Qed.

(** X11: when a call returns a report, it has started every task of the
    workflow exactly once, and the report has the names of the tasks as
    keys, in insertion order. *)
Theorem returned_report_covers_started_tasks e wn ctx w o report :
  workflows e !! wn = Some w ->
  List.NoDup (dict_keys (tasks w)) ->
  execute_workflow wn ctx e = Some o ->
  ended o = Return report ->
  Permutation (invoked (events o)) (dict_keys (tasks w))
  /\ dict_keys report = dict_keys (tasks w).
Proof.
  intros Hw Hnd Hrun Hret.
  destruct (execute_workflow_final e wn ctx w o Hw Hnd Hrun)
    as (st & HI & HL & _ & _ & Hinv & [[Hfull Hret']|[_ Hraise]]); [|congruence].
  rewrite Hret' in Hret. injection Hret as <-. split.
  - rewrite Hinv. apply NoDup_Permutation.
    + apply NoDup_ListNoDup, (log_nodup _ _ _ HL).
    + now apply NoDup_ListNoDup.
    + intros n. rewrite !list_elem_of_In, (inv_logged _ _ HI). split.
      * intros Hn. eapply Inv_executed_key; eauto.
      * intros Hn. eapply Inv_full; eauto.
  - rewrite collect_results_keys. apply (inv_keys _ _ HI).
Qed.

(** X12: the actions of one call share the context: when the loop is
    left, the context is what the actions of the started tasks make of
    [context or {}] when called one after the other in the order they were
    started, each with the context the one before left. *)
Theorem actions_share_the_context e wn ctx w o :
  workflows e !! wn = Some w ->
  List.NoDup (dict_keys (tasks w)) ->
  execute_workflow wn ctx e = Some o ->
  exists st,
    final_state wn ctx e = Some st
    /\ context st = run_actions (tasks w) (invoked (events o)) (default [] ctx).
Proof.
  intros Hw Hnd Hrun.
  destruct (execute_workflow_final e wn ctx w o Hw Hnd Hrun)
    as (st & _ & HL & Hfinal & _ & -> & _).
  exists st. split; [exact Hfinal|apply (log_context _ _ _ HL)].
Qed.

Lemma while_loop_more_fuel fuel k st r :
  while_loop fuel st = Some r -> while_loop (fuel + k) st = Some r.
Proof.
  revert st. induction fuel as [|fuel IH]; intros st; cbn [while_loop Nat.add];
    [discriminate|].
  destruct (Nat.ltb _ _); [|auto].
  destruct (scan st) as [st1 [|]]; auto.
Qed.

(** X13: on every registered workflow, cyclic or not, the [while] loop is
    left after at most [len(tasks) + 1] scans of the task table: the call
    always ends, by a report or by an error, and what it ends with does not
    depend on the bound on the number of scans. *)
Theorem scheduling_loop_always_ends e wn ctx w :
  workflows e !! wn = Some w ->
  List.NoDup (dict_keys (tasks w)) ->
  (exists o, execute_workflow wn ctx e = Some o)
  /\ exists r, forall fuel,
       length (tasks w) < fuel ->
       while_loop fuel (mkState w ∅ (default [] ctx) [InfoExecutingWorkflow wn])
       = Some r.
Proof.
  intros Hw Hnd. split.
  - apply execute_workflow_total. intros w' Hw'. congruence.
  - set (st0 := mkState w ∅ (default [] ctx) [InfoExecutingWorkflow wn]).
    assert (HI0 : Inv (tasks w) st0) by (apply Inv_init; solve [assumption|reflexivity]).
    destruct (while_loop_spec (tasks w) Hnd (S (length (tasks w))) st0 HI0)
      as (st & ex & Hrun & _); [lia|].
    exists (st, ex). intros fuel Hfuel.
    replace fuel with (S (length (tasks w)) + (fuel - S (length (tasks w)))) by lia.
    now apply while_loop_more_fuel.
Qed.

(** ** The schedule does not depend on the actions *)

Lemma same_schedule_get d1 d2 n :
  same_schedule d1 d2 ->
  match dict_get n d1, dict_get n d2 with
  | Some t1, Some t2 =>
      dependencies t1 = dependencies t2
      /\ is_terminal (status t1) = is_terminal (status t2)
  | None, None => True
  | _, _ => False
  end.
Proof.
  unfold same_schedule. revert d2.
  induction d1 as [|[k1 t1] d1 IH]; intros [|[k2 t2] d2]; simpl; try discriminate; [auto|].
  unfold task_schedule at 1 3. simpl. intros [= -> Hd Ht Hrest].
  destruct (String.eqb n k2); [auto|]. now apply IH.
Qed.

Lemma same_schedule_keys d1 d2 :
  same_schedule d1 d2 -> dict_keys d1 = dict_keys d2.
Proof.
  unfold same_schedule, dict_keys. intros H.
  apply (f_equal (map (fun x => fst (fst x)))) in H.
  now rewrite !map_map in H.
Qed.

Lemma same_schedule_length d1 d2 :
  same_schedule d1 d2 -> length d1 = length d2.
Proof.
  intros H. apply same_schedule_keys in H. apply (f_equal (@length _)) in H.
  unfold dict_keys in H. now rewrite !length_map in H.
Qed.

(** After the [try] statement the task is terminal, whatever its action
    did; nothing else changes for the scheduler. *)
Lemma try_block_schedule n task st :
  map task_schedule (tasks (workflow (try_block n task st)))
  = map (fun kv => if String.eqb n (fst kv)
                   then (fst kv, dependencies (snd kv), true)
                   else task_schedule kv)
      (tasks (workflow st)).
Proof.
  unfold try_block, begin_task. simpl.
  destruct (action task (context st)) as [[v|msg] c]; simpl;
    unfold dict_alter; rewrite !map_map; apply map_ext; intros [k t]; cbn [fst snd];
    destruct (String.eqb n k) eqn:E; cbn [fst snd]; rewrite ?E; cbn [fst snd];
    rewrite ?E; reflexivity.
Qed.

Lemma for_body_same_progress st1 st2 p n :
  same_progress st1 st2 ->
  same_progress (fst (for_body (st1, p) n)) (fst (for_body (st2, p) n))
  /\ snd (for_body (st1, p) n) = snd (for_body (st2, p) n).
Proof.
  intros (Hs & He & Hl). unfold for_body.
  pose proof (same_schedule_get _ _ n Hs) as Hget.
  destruct (dict_get n (tasks (workflow st1))) as [t1|] eqn:H1;
    destruct (dict_get n (tasks (workflow st2))) as [t2|] eqn:H2;
    try contradiction; [|repeat split; assumption].
  destruct Hget as [Hd Ht]. rewrite Ht.
  destruct (is_terminal (status t2)); [repeat split; assumption|].
  assert (Hmet : deps_met t1 st1 = deps_met t2 st2)
    by (unfold deps_met; now rewrite Hd, He).
  rewrite Hmet. destruct (deps_met t2 st2); [|repeat split; assumption].
  cbn [fst snd]. split; [|reflexivity].
  destruct (try_block_spec n t1 st1 H1) as (_ & He1 & _ & _ & Hl1).
  destruct (try_block_spec n t2 st2 H2) as (_ & He2 & _ & _ & Hl2).
  split; [|split].
  - unfold same_schedule. rewrite !try_block_schedule.
    unfold same_schedule in Hs. revert Hs.
    generalize (tasks (workflow st1)) (tasks (workflow st2)).
    intros l. induction l as [|[k1 u1] l IH]; intros [|[k2 u2] l']; simpl;
      try discriminate; [reflexivity|].
    unfold task_schedule at 2 4. simpl. intros [= -> Hdu Htu Hrest].
    rewrite (IH l' Hrest). destruct (String.eqb n k2); [now rewrite Hdu|].
    unfold task_schedule. simpl. now rewrite Hdu, Htu.
  - now rewrite He1, He2, He.
  - now rewrite Hl1, Hl2, Hl.
Qed.

Lemma fold_for_body_same_progress l st1 st2 p :
  same_progress st1 st2 ->
  same_progress (fst (fold_left for_body l (st1, p))) (fst (fold_left for_body l (st2, p)))
  /\ snd (fold_left for_body l (st1, p)) = snd (fold_left for_body l (st2, p)).
Proof.
  revert st1 st2 p. induction l as [|n l IH]; intros st1 st2 p Hs; [auto|].
  cbn [fold_left].
  destruct (for_body_same_progress st1 st2 p n Hs) as [Hs' Hp].
  destruct (for_body (st1, p) n) as [s1 p1], (for_body (st2, p) n) as [s2 p2].
  cbn [fst snd] in Hs', Hp. subst p2. now apply IH.
Qed.

Lemma while_loop_same_progress fuel st1 st2 :
  same_progress st1 st2 ->
  match while_loop fuel st1, while_loop fuel st2 with
  | Some (s1, x1), Some (s2, x2) => same_progress s1 s2 /\ x1 = x2
  | None, None => True
  | _, _ => False
  end.
Proof.
  revert st1 st2. induction fuel as [|fuel IH]; intros st1 st2 Hs; [exact I|].
  cbn [while_loop].
  destruct Hs as (Hsch & He & Hl).
  rewrite He, (same_schedule_length _ _ Hsch).
  destruct (Nat.ltb _ _); [|repeat split; assumption].
  pose proof (fold_for_body_same_progress (dict_keys (tasks (workflow st1))) st1 st2 false
                (conj Hsch (conj He Hl))) as [Hs' Hp].
  unfold scan. rewrite <- (same_schedule_keys _ _ Hsch).
  destruct (fold_left for_body _ (st1, false)) as [s1 p1],
           (fold_left for_body _ (st2, false)) as [s2 p2].
  cbn [fst snd] in Hs', Hp. subst p2. destruct p1; [now apply IH|].
  split; [exact Hs'|]. unfold remaining. destruct Hs' as (Hsch' & -> & _).
  now rewrite (same_schedule_keys _ _ Hsch').
Qed.

(** X14: which tasks a call starts, in which order, and whether it returns
    or raises, and with which names, depends only on the names of the
    tasks, their dependencies and which of them are already terminal: not
    on what the actions return or raise, nor on the context.  A failing
    action changes its own entry of the report and nothing of the
    schedule. *)
Theorem schedule_independent_of_actions e1 e2 wn ctx1 ctx2 w1 w2 o1 o2 :
  workflows e1 !! wn = Some w1 ->
  workflows e2 !! wn = Some w2 ->
  same_schedule (tasks w1) (tasks w2) ->
  execute_workflow wn ctx1 e1 = Some o1 ->
  execute_workflow wn ctx2 e2 = Some o2 ->
  invoked (events o1) = invoked (events o2)
  /\ match ended o1, ended o2 with
     | Return r1, Return r2 => dict_keys r1 = dict_keys r2
     | Raise x1, Raise x2 => x1 = x2
     | _, _ => False
     end.
Proof.
  intros H1 H2 Hs. unfold execute_workflow. rewrite H1, H2. cbv zeta.
  rewrite (same_schedule_length _ _ Hs).
  pose proof (while_loop_same_progress (S (length (tasks w2)))
                (mkState w1 ∅ (default [] ctx1) [InfoExecutingWorkflow wn])
                (mkState w2 ∅ (default [] ctx2) [InfoExecutingWorkflow wn])) as Hloop.
  specialize (Hloop (conj Hs (conj eq_refl eq_refl))).
  destruct (while_loop _ (mkState w1 _ _ _)) as [[s1 x1]|];
    destruct (while_loop _ (mkState w2 _ _ _)) as [[s2 x2]|];
    try contradiction; [|discriminate].
  destruct Hloop as [(Hsch & He & Hl) <-].
  destruct x1 as [|x]; intros [= <-] [= <-]; cbn [events ended].
  - rewrite !invoked_completed. split; [exact Hl|].
    rewrite !collect_results_keys. now apply same_schedule_keys.
  - auto.
Qed.

(** X20: a task that is already terminal when a call begins is skipped:
    the call never starts it and leaves it exactly as it was, whether the
    call returns or raises. *)
Theorem terminal_tasks_are_skipped e wn ctx w o n t0 :
  workflows e !! wn = Some w ->
  List.NoDup (dict_keys (tasks w)) ->
  execute_workflow wn ctx e = Some o ->
  dict_get n (tasks w) = Some t0 ->
  is_terminal (status t0) = true ->
  ~ In n (invoked (events o))
  /\ exists w',
       workflows (engine_after o) !! wn = Some w'
       /\ dict_get n (tasks w') = Some t0.
Proof.
  intros Hw Hnd Hrun Hget Hterm.
  destruct (execute_workflow_final e wn ctx w o Hw Hnd Hrun)
    as (st & HI & _ & _ & Hafter & -> & _).
  assert (Hn : n ∉ executed_tasks st).
  { intros Hin. destruct (inv_resolved _ st HI n Hin) as (t & _ & Ht & Hnt & _).
    rewrite Hget in Ht. injection Ht as <-. congruence. }
  split.
  - intros Hin. apply Hn. now apply (inv_logged _ _ HI).
  - exists (workflow st). split; [exact Hafter|].
    now rewrite (inv_untouched _ _ HI n Hn).
Qed.

(** * The API client *)

(** ** Building the URL *)

Lemma rstrip_slash_app_slash s : rstrip_slash (s ++ "/") = rstrip_slash s.
Proof.
  induction s as [|c s IH]; [reflexivity|].
  simpl. now rewrite IH.
Qed.

Lemma rstrip_slash_no_trailing_slash s s' : rstrip_slash s <> s' ++ "/".
Proof.
  revert s'. induction s as [|c s IH]; intros s'; simpl.
  - destruct s'; discriminate.
  - destruct (rstrip_slash s) as [|c2 r2] eqn:Hr.
    + destruct (Ascii.eqb_spec c "/"%char) as [->|Hc].
      * destruct s'; discriminate.
      * destruct s' as [|c' s'']; cbn [String.append].
        -- intros [= H]. contradiction.
        -- destruct s''; discriminate.
    + destruct s' as [|c' s'']; cbn [String.append]; [discriminate|].
      intros [= -> H]. exact (IH s'' H).
Qed.

Lemma lstrip_slash_no_leading_slash s s' : lstrip_slash s <> String "/"%char s'.
Proof.
  induction s as [|c s IH]; simpl; [discriminate|].
  destruct (Ascii.eqb_spec c "/"%char) as [->|Hc]; [exact IH|congruence].
Qed.

(** X15: the URL of a request joins the base URL and the endpoint with
    exactly one slash: trailing slashes of the base URL given to the
    constructor and leading slashes of the endpoint make no difference, the
    part before the joining slash does not end with a slash and the part
    after it does not begin with one. *)
Theorem request_url_single_slash url t r h endpoint :
  request_url (new_APIClient (url ++ "/") t r h) endpoint
    = request_url (new_APIClient url t r h) endpoint
  /\ request_url (new_APIClient url t r h) ("/" ++ endpoint)
     = request_url (new_APIClient url t r h) endpoint
  /\ exists before after,
       request_url (new_APIClient url t r h) endpoint = before ++ "/" ++ after
       /\ (forall s, before <> s ++ "/")
       /\ (forall s, after <> "/" ++ s).
Proof.
  unfold request_url, new_APIClient. simpl. split; [|split].
  - now rewrite rstrip_slash_app_slash.
  - reflexivity.
  - exists (rstrip_slash url), (lstrip_slash endpoint). split; [reflexivity|]. split.
    + apply rstrip_slash_no_trailing_slash.
    + apply lstrip_slash_no_leading_slash.
Qed.

(** ** Retrying *)

Lemma retry_loop_failed_prefix m r net k :
  forall a rest done log,
    (forall i, a <= i < a + k -> exists e, net i = RequestException e) ->
    (forall i, a <= i < a + k -> Z.of_nat i <> (r - 1)%Z) ->
    retry_loop m r net (seq a k ++ rest) done log
    = retry_loop m r net rest (done ++ seq a k)
        (log ++ map (fun i => ApiWarningRetrying m (Z.of_nat i + 1)) (seq a k)).
Proof.
  induction k as [|k IH]; intros a rest done log Hfail Hlast.
  - simpl. now rewrite !app_nil_r.
  - cbn [seq app retry_loop map].
    destruct (Hfail a) as [e ->]; [lia|].
    destruct (Z.eqb_spec (Z.of_nat a) (r - 1)) as [Heq|_]; [exfalso; apply (Hlast a); lia|].
    rewrite IH.
    + now rewrite <- !app_assoc.
    + intros i Hi. apply Hfail. lia.
    + intros i Hi. apply Hlast. lia.
Qed.

(** What [retry_loop] does, by the first attempt that does not raise a
    request exception. *)
Lemma retry_loop_first m r net k :
  (0 <= r)%Z -> k < Z.to_nat r -> fails_before net k ->
  retry_loop m r net (seq 0 (Z.to_nat r)) [] []
  = match net k with
    | Responded body => mkApiOutcome (seq 0 (S k)) (warnings m k) (ApiReturn body)
    | OtherException e =>
        mkApiOutcome (seq 0 (S k)) (warnings m k) (ApiRaise (OtherException e))
    | RequestException e =>
        if Z.eqb (Z.of_nat k) (r - 1)
        then mkApiOutcome (seq 0 (S k)) (warnings m k ++ [ApiErrorFailed m r e])
               (ApiRaise (RequestException e))
        else retry_loop m r net (seq (S k) (Z.to_nat r - S k)) (seq 0 (S k))
               (warnings m (S k))
    end.
Proof.
  intros Hr Hk Hfail.
  assert (Hsplit : seq 0 (Z.to_nat r)
                   = (seq 0 k ++ k :: seq (S k) (Z.to_nat r - S k))%list).
  { replace (Z.to_nat r) with (k + S (Z.to_nat r - S k)) at 1 by lia.
    now rewrite seq_app. }
  rewrite Hsplit.
  rewrite retry_loop_failed_prefix;
    [|intros i Hi; apply Hfail; lia|intros i Hi; lia].
  cbn [retry_loop app]. rewrite !seq_S. cbn [Nat.add]. fold (warnings m k).
  destruct (net k) as [body|e|e]; try reflexivity.
  destruct (Z.eqb _ _); [reflexivity|].
  unfold warnings. now rewrite seq_S, map_app.
Qed.

(** X16: when the first [k] attempts at a request raise request exceptions
    and attempt [k] (one of the [retry_attempts]) answers, [get] and [post]
    return the decoded body of that answer: they have sent [k + 1] requests,
    logged one warning for each failed attempt, numbered from 1, and no
    error. *)
Theorem first_answer_is_returned c endpoint params data json net k body :
  (0 <= retry_attempts c)%Z ->
  k < Z.to_nat (retry_attempts c) ->
  (fails_before (net (get_request c endpoint params)) k ->
   net (get_request c endpoint params) k = Responded body ->
   api_get c endpoint params net
   = mkApiOutcome (seq 0 (S k)) (warnings GET k) (ApiReturn body))
  /\ (fails_before (net (post_request c endpoint data json)) k ->
      net (post_request c endpoint data json) k = Responded body ->
      api_post c endpoint data json net
      = mkApiOutcome (seq 0 (S k)) (warnings POST k) (ApiReturn body)).
Proof.
  intros Hr Hk. unfold api_get, api_post. split; intros Hfail Hnet;
    now rewrite (retry_loop_first _ _ _ k Hr Hk Hfail), Hnet.
Qed.

(** X17: when every one of the [retry_attempts] attempts at a request
    raises a request exception, [get] and [post] raise the exception of the
    last attempt, having sent exactly [retry_attempts] requests and logged a
    warning for each attempt but the last and then one error. *)
Theorem last_request_exception_is_raised c endpoint params data json net e :
  (1 <= retry_attempts c)%Z ->
  (fails_before (net (get_request c endpoint params)) (Z.to_nat (retry_attempts c)) ->
   net (get_request c endpoint params) (Z.to_nat (retry_attempts c) - 1)
     = RequestException e ->
   api_get c endpoint params net
   = mkApiOutcome (seq 0 (Z.to_nat (retry_attempts c)))
       (warnings GET (Z.to_nat (retry_attempts c) - 1)
        ++ [ApiErrorFailed GET (retry_attempts c) e])
       (ApiRaise (RequestException e)))
  /\ (fails_before (net (post_request c endpoint data json))
        (Z.to_nat (retry_attempts c)) ->
      net (post_request c endpoint data json) (Z.to_nat (retry_attempts c) - 1)
        = RequestException e ->
      api_post c endpoint data json net
      = mkApiOutcome (seq 0 (Z.to_nat (retry_attempts c)))
          (warnings POST (Z.to_nat (retry_attempts c) - 1)
           ++ [ApiErrorFailed POST (retry_attempts c) e])
          (ApiRaise (RequestException e))).
Proof.
  intros Hr. unfold api_get, api_post.
  set (n := Z.to_nat (retry_attempts c)) in *.
  assert (Hk : n - 1 < n) by lia.
  assert (Hr0 : (0 <= retry_attempts c)%Z) by lia.
  split; intros Hfail Hnet;
    (assert (Hfail' : fails_before (net _) (n - 1))
       by (intros i Hi; apply Hfail; lia));
    rewrite (retry_loop_first _ _ _ (n - 1) Hr0 Hk Hfail'), Hnet;
    (replace (Z.of_nat (n - 1) =? retry_attempts c - 1)%Z with true
       by (symmetry; apply Z.eqb_eq; lia));
    now replace (S (n - 1)) with n by lia.
Qed.

(** X18: an exception that is not a request exception is not retried: when
    attempt [k] raises one after [k] request exceptions, [get] and [post]
    raise it at once, with no error logged and no further request. *)
Theorem other_exception_is_not_retried c endpoint params data json net k e :
  (0 <= retry_attempts c)%Z ->
  k < Z.to_nat (retry_attempts c) ->
  (fails_before (net (get_request c endpoint params)) k ->
   net (get_request c endpoint params) k = OtherException e ->
   api_get c endpoint params net
   = mkApiOutcome (seq 0 (S k)) (warnings GET k) (ApiRaise (OtherException e)))
  /\ (fails_before (net (post_request c endpoint data json)) k ->
      net (post_request c endpoint data json) k = OtherException e ->
      api_post c endpoint data json net
      = mkApiOutcome (seq 0 (S k)) (warnings POST k) (ApiRaise (OtherException e))).
Proof.
  intros Hr Hk. unfold api_get, api_post. split; intros Hfail Hnet;
    now rewrite (retry_loop_first _ _ _ k Hr Hk Hfail), Hnet.
Qed.

Lemma retry_loop_sent m r net todo :
  forall a done log,
    todo = seq a (length todo) ->
    exists k, k <= length todo
      /\ sent (retry_loop m r net todo done log) = (done ++ seq a k)%list
      /\ length (api_logged (retry_loop m r net todo done log)) <= length log + k.
Proof.
  induction todo as [|x todo IH]; intros a done log Htodo.
  - exists 0. simpl. rewrite app_nil_r. split; [lia|]. split; [reflexivity|lia].
  - simpl in Htodo. injection Htodo as -> Htodo. cbn [retry_loop].
    destruct (net a) as [body|e|e].
    + exists 1. simpl. split; [lia|]. split; [reflexivity|lia].
    + destruct (Z.eqb _ _).
      * exists 1. simpl. split; [lia|]. split; [reflexivity|].
        rewrite length_app. simpl. lia.
      * destruct (IH (S a) (done ++ [a])%list
                    (log ++ [ApiWarningRetrying m (Z.of_nat a + 1)])%list Htodo)
          as (k & Hk & Hsent & Hlog).
        exists (S k). simpl. split; [lia|]. split.
        -- rewrite Hsent, <- app_assoc. reflexivity.
        -- rewrite length_app in Hlog. simpl in Hlog. lia.
    + exists 1. simpl. split; [lia|]. split; [reflexivity|lia].
Qed.

(** X19: [get] and [post] send their attempts in order, never more than
    [retry_attempts] of them, and log at most one event for each; with
    [retry_attempts] zero or negative they send nothing and return
    [None]. *)
Theorem at_most_retry_attempts_requests c endpoint params data json net :
  (exists k, k <= Z.to_nat (retry_attempts c)
     /\ sent (api_get c endpoint params net) = seq 0 k
     /\ length (api_logged (api_get c endpoint params net)) <= k)
  /\ (exists k, k <= Z.to_nat (retry_attempts c)
        /\ sent (api_post c endpoint data json net) = seq 0 k
        /\ length (api_logged (api_post c endpoint data json net)) <= k)
  /\ ((retry_attempts c <= 0)%Z ->
      api_get c endpoint params net = mkApiOutcome [] [] (ApiReturn PyNone)
      /\ api_post c endpoint data json net = mkApiOutcome [] [] (ApiReturn PyNone)).
Proof.
  unfold api_get, api_post. split; [|split].
  - destruct (retry_loop_sent GET (retry_attempts c)
                (net (get_request c endpoint params))
                (seq 0 (Z.to_nat (retry_attempts c))) 0 [] [])
      as (k & Hk & Hs & Hl); [now rewrite length_seq|].
    rewrite length_seq in Hk. exists k. auto.
  - destruct (retry_loop_sent POST (retry_attempts c)
                (net (post_request c endpoint data json))
                (seq 0 (Z.to_nat (retry_attempts c))) 0 [] [])
      as (k & Hk & Hs & Hl); [now rewrite length_seq|].
    rewrite length_seq in Hk. exists k. auto.
  - intros Hr. replace (Z.to_nat (retry_attempts c)) with 0 by lia. auto.
Qed.

(** * The further properties at concrete inputs *)

Lemma order_processing_built : built order_processing.
Proof. unfold order_processing. repeat constructor. Qed.

Lemma failing_payment_outcome :
  exists o report,
    execute_workflow "order_processing" None (engine_with order_with_failing_payment)
      = Some o
    /\ ended o = Return report.
Proof. eexists _, _. split; [vm_compute; reflexivity|reflexivity]. Qed.

Lemma order_processing_outcome :
  exists o report,
    execute_workflow "order_processing" None order_engine = Some o
    /\ ended o = Return report.
Proof. eexists _, _. split; [vm_compute; reflexivity|reflexivity]. Qed.

Lemma built_workflow_well_formed_witness :
  built order_processing
  /\ List.NoDup (dict_keys (tasks order_processing))
  /\ all_fresh (tasks order_processing)
  /\ Forall (fun kv => name (snd kv) = fst kv) (tasks order_processing).
Proof.
  split; [exact order_processing_built|].
  exact (built_workflow_well_formed order_processing order_processing_built).
Defined.

Lemma execute_workflow_other_workflows_witness :
  exists o,
    execute_workflow "order_processing" None (engine_with order_with_failing_payment)
      = Some o
    /\ (forall wn', wn' <> "order_processing" ->
          workflows (engine_after o) !! wn'
          = workflows (engine_with order_with_failing_payment) !! wn')
    /\ dom (workflows (engine_after o))
       = dom (workflows (engine_with order_with_failing_payment)).
Proof.
  destruct failing_payment_outcome as (o & report & Hrun & Hend).
  exists o. split; [exact Hrun|].
  exact (execute_workflow_other_workflows
           (engine_with order_with_failing_payment) "order_processing" None o Hrun).
Defined.

Lemma execute_workflow_keeps_task_definitions_witness :
  exists o,
    (workflows (engine_with order_with_failing_payment) !! "order_processing"
       = Some order_with_failing_payment
     /\ List.NoDup (dict_keys (tasks order_with_failing_payment))
     /\ execute_workflow "order_processing" None (engine_with order_with_failing_payment)
        = Some o)
    /\ exists w',
         workflows (engine_after o) !! "order_processing" = Some w'
         /\ wf_name w' = wf_name order_with_failing_payment
         /\ description w' = description order_with_failing_payment
         /\ map task_static (tasks w') = map task_static (tasks order_with_failing_payment).
Proof.
  destruct failing_payment_outcome as (o & report & Hrun & Hend).
  destruct failing_payment_ready as (H1 & H2 & _).
  exists o. split; [repeat split; assumption|].
  exact (execute_workflow_keeps_task_definitions
           (engine_with order_with_failing_payment) "order_processing" None
           order_with_failing_payment o H1 H2 Hrun).
Defined.

Lemma each_task_started_at_most_once_witness :
  exists o,
    (workflows (engine_with order_with_failing_payment) !! "order_processing"
       = Some order_with_failing_payment
     /\ List.NoDup (dict_keys (tasks order_with_failing_payment))
     /\ execute_workflow "order_processing" None (engine_with order_with_failing_payment)
        = Some o)
    /\ List.NoDup (invoked (events o))
    /\ forall n, In n (invoked (events o)) ->
         In n (dict_keys (tasks order_with_failing_payment)).
Proof.
  destruct failing_payment_outcome as (o & report & Hrun & Hend).
  destruct failing_payment_ready as (H1 & H2 & _).
  exists o. split; [repeat split; assumption|].
  exact (each_task_started_at_most_once
           (engine_with order_with_failing_payment) "order_processing" None
           order_with_failing_payment o H1 H2 Hrun).
Defined.

Lemma tasks_started_in_dependency_order_witness :
  exists o,
    (workflows (engine_with order_with_failing_payment) !! "order_processing"
       = Some order_with_failing_payment
     /\ List.NoDup (dict_keys (tasks order_with_failing_payment))
     /\ execute_workflow "order_processing" None (engine_with order_with_failing_payment)
        = Some o)
    /\ dependency_ordered (tasks order_with_failing_payment) (invoked (events o)).
Proof.
  destruct failing_payment_outcome as (o & report & Hrun & Hend).
  destruct failing_payment_ready as (H1 & H2 & _).
  exists o. split; [repeat split; assumption|].
  exact (tasks_started_in_dependency_order
           (engine_with order_with_failing_payment) "order_processing" None
           order_with_failing_payment o H1 H2 Hrun).
Defined.

Lemma returns_iff_acyclic_and_defined_witness :
  exists o,
    (workflows order_engine !! "order_processing" = Some order_processing
     /\ List.NoDup (dict_keys (tasks order_processing))
     /\ all_pending (tasks order_processing)
     /\ execute_workflow "order_processing" None order_engine = Some o)
    /\ ((exists report, ended o = Return report)
        <-> acyclic (tasks order_processing) /\ deps_defined (tasks order_processing)).
Proof.
  destruct order_processing_outcome as (o & report & Hrun & Hend).
  destruct order_processing_ready as (H1 & H2 & H3 & _).
  exists o. split; [repeat split; assumption|].
  exact (returns_iff_acyclic_and_defined
           order_engine "order_processing" None order_processing o H1 H2 H3 Hrun).
Defined.

Lemma returned_report_covers_started_tasks_witness :
  exists o report,
    (workflows (engine_with order_with_failing_payment) !! "order_processing"
       = Some order_with_failing_payment
     /\ List.NoDup (dict_keys (tasks order_with_failing_payment))
     /\ execute_workflow "order_processing" None (engine_with order_with_failing_payment)
        = Some o
     /\ ended o = Return report)
    /\ Permutation (invoked (events o)) (dict_keys (tasks order_with_failing_payment))
    /\ dict_keys report = dict_keys (tasks order_with_failing_payment).
Proof.
  destruct failing_payment_outcome as (o & report & Hrun & Hend).
  destruct failing_payment_ready as (H1 & H2 & _).
  exists o, report. split; [repeat split; assumption|].
  exact (returned_report_covers_started_tasks
           (engine_with order_with_failing_payment) "order_processing" None
           order_with_failing_payment o report H1 H2 Hrun Hend).
Defined.

Lemma actions_share_the_context_witness :
  exists o,
    (workflows (engine_with order_with_failing_payment) !! "order_processing"
       = Some order_with_failing_payment
     /\ List.NoDup (dict_keys (tasks order_with_failing_payment))
     /\ execute_workflow "order_processing" None (engine_with order_with_failing_payment)
        = Some o)
    /\ exists st,
         final_state "order_processing" None (engine_with order_with_failing_payment)
           = Some st
         /\ context st
            = run_actions (tasks order_with_failing_payment) (invoked (events o))
                (default [] None).
Proof.
  destruct failing_payment_outcome as (o & report & Hrun & Hend).
  destruct failing_payment_ready as (H1 & H2 & _).
  exists o. split; [repeat split; assumption|].
  exact (actions_share_the_context
           (engine_with order_with_failing_payment) "order_processing" None
           order_with_failing_payment o H1 H2 Hrun).
Defined.

Lemma scheduling_loop_always_ends_witness :
  (workflows (engine_with cyclic_workflow) !! "cyclic" = Some cyclic_workflow
   /\ List.NoDup (dict_keys (tasks cyclic_workflow)))
  /\ (exists o, execute_workflow "cyclic" None (engine_with cyclic_workflow) = Some o)
  /\ exists r, forall fuel,
       length (tasks cyclic_workflow) < fuel ->
       while_loop fuel
         (mkState cyclic_workflow ∅ (default [] None) [InfoExecutingWorkflow "cyclic"])
       = Some r.
Proof.
  assert (H1 : workflows (engine_with cyclic_workflow) !! "cyclic" = Some cyclic_workflow)
    by reflexivity.
  assert (H2 : List.NoDup (dict_keys (tasks cyclic_workflow)))
    by (apply concrete_NoDup; reflexivity).
  split; [split; assumption|].
  exact (scheduling_loop_always_ends
           (engine_with cyclic_workflow) "cyclic" None cyclic_workflow H1 H2).
Defined.

Lemma schedule_independent_of_actions_witness :
  exists o1 o2,
    (workflows order_engine !! "order_processing" = Some order_processing
     /\ workflows (engine_with order_with_failing_payment) !! "order_processing"
        = Some order_with_failing_payment
     /\ same_schedule (tasks order_processing) (tasks order_with_failing_payment)
     /\ execute_workflow "order_processing" None order_engine = Some o1
     /\ execute_workflow "order_processing" (Some [("user", PyStr "ann")])
          (engine_with order_with_failing_payment) = Some o2)
    /\ invoked (events o1) = invoked (events o2)
    /\ match ended o1, ended o2 with
       | Return r1, Return r2 => dict_keys r1 = dict_keys r2
       | Raise x1, Raise x2 => x1 = x2
       | _, _ => False
       end.
Proof.
  destruct order_processing_outcome as (o1 & report & Hrun1 & _).
  assert (Hrun2 : exists o2,
            execute_workflow "order_processing" (Some [("user", PyStr "ann")])
              (engine_with order_with_failing_payment) = Some o2)
    by (eexists; vm_compute; reflexivity).
  destruct Hrun2 as [o2 Hrun2].
  assert (H1 : workflows order_engine !! "order_processing" = Some order_processing)
    by reflexivity.
  assert (H2 : workflows (engine_with order_with_failing_payment) !! "order_processing"
               = Some order_with_failing_payment) by reflexivity.
  assert (H3 : same_schedule (tasks order_processing) (tasks order_with_failing_payment))
    by reflexivity.
  exists o1, o2. split; [repeat split; assumption|].
  exact (schedule_independent_of_actions
           order_engine (engine_with order_with_failing_payment) "order_processing"
           None (Some [("user", PyStr "ann")]) order_processing
           order_with_failing_payment o1 o2 H1 H2 H3 Hrun1 Hrun2).
Defined.

Lemma flaky_network_fails_before req : fails_before (flaky_network req) 2.
Proof. intros [|[|i]] Hi; [eexists; reflexivity..|lia]. Qed.

Lemma dead_network_fails_before req k : fails_before (dead_network req) k.
Proof. intros i _. eexists. reflexivity. Qed.

Lemma broken_network_fails_before req : fails_before (broken_network req) 1.
Proof. intros [|i] Hi; [eexists; reflexivity|lia]. Qed.

Lemma first_answer_is_returned_witness :
  ((0 <= retry_attempts example_client)%Z /\ 2 < Z.to_nat (retry_attempts example_client))
  /\ api_get example_client "/orders" None flaky_network
     = mkApiOutcome [0; 1; 2]
         [ApiWarningRetrying GET 1; ApiWarningRetrying GET 2]
         (ApiReturn (PyDict [("ok", PyBool true)]))
  /\ api_post example_client "/orders" None None flaky_network
     = mkApiOutcome [0; 1; 2]
         [ApiWarningRetrying POST 1; ApiWarningRetrying POST 2]
         (ApiReturn (PyDict [("ok", PyBool true)])).
Proof.
  assert (Hr : (0 <= retry_attempts example_client)%Z) by (simpl; lia).
  assert (Hk : 2 < Z.to_nat (retry_attempts example_client)) by (simpl; lia).
  split; [split; assumption|].
  destruct (first_answer_is_returned example_client "/orders" None None None
              flaky_network 2 (PyDict [("ok", PyBool true)]) Hr Hk) as [Hget Hpost].
  split; [apply Hget|apply Hpost];
    solve [apply flaky_network_fails_before|reflexivity].
Defined.

Lemma last_request_exception_is_raised_witness :
  (1 <= retry_attempts example_client)%Z
  /\ api_get example_client "/orders" None dead_network
     = mkApiOutcome [0; 1; 2]
         [ApiWarningRetrying GET 1; ApiWarningRetrying GET 2;
          ApiErrorFailed GET 3 "connection refused"]
         (ApiRaise (RequestException "connection refused"))
  /\ api_post example_client "/orders" None None dead_network
     = mkApiOutcome [0; 1; 2]
         [ApiWarningRetrying POST 1; ApiWarningRetrying POST 2;
          ApiErrorFailed POST 3 "connection refused"]
         (ApiRaise (RequestException "connection refused")).
Proof.
  assert (Hr : (1 <= retry_attempts example_client)%Z) by (simpl; lia).
  split; [exact Hr|].
  destruct (last_request_exception_is_raised example_client "/orders" None None None
              dead_network "connection refused" Hr) as [Hget Hpost].
  split; [apply Hget|apply Hpost];
    solve [apply dead_network_fails_before|reflexivity].
Defined.

Lemma other_exception_is_not_retried_witness :
  ((0 <= retry_attempts example_client)%Z /\ 1 < Z.to_nat (retry_attempts example_client))
  /\ api_get example_client "/orders" None broken_network
     = mkApiOutcome [0; 1] [ApiWarningRetrying GET 1]
         (ApiRaise (OtherException "KeyboardInterrupt"))
  /\ api_post example_client "/orders" None None broken_network
     = mkApiOutcome [0; 1] [ApiWarningRetrying POST 1]
         (ApiRaise (OtherException "KeyboardInterrupt")).
Proof.
  assert (Hr : (0 <= retry_attempts example_client)%Z) by (simpl; lia).
  assert (Hk : 1 < Z.to_nat (retry_attempts example_client)) by (simpl; lia).
  split; [split; assumption|].
  destruct (other_exception_is_not_retried example_client "/orders" None None None
              broken_network 1 "KeyboardInterrupt" Hr Hk) as [Hget Hpost].
  split; [apply Hget|apply Hpost];
    solve [apply broken_network_fails_before|reflexivity].
Defined.

Lemma terminal_tasks_are_skipped_witness :
  exists w o t0,
    (workflows order_engine_after_run !! "order_processing" = Some w
     /\ List.NoDup (dict_keys (tasks w))
     /\ execute_workflow "order_processing" None order_engine_after_run = Some o
     /\ dict_get "validate" (tasks w) = Some t0
     /\ is_terminal (status t0) = true)
    /\ ~ In "validate" (invoked (events o))
    /\ exists w',
         workflows (engine_after o) !! "order_processing" = Some w'
         /\ dict_get "validate" (tasks w') = Some t0.
Proof.
  assert (H : exists w o t0,
            workflows order_engine_after_run !! "order_processing" = Some w
            /\ bool_decide (NoDup (dict_keys (tasks w))) = true
            /\ execute_workflow "order_processing" None order_engine_after_run = Some o
            /\ dict_get "validate" (tasks w) = Some t0
            /\ is_terminal (status t0) = true).
  { eexists _, _, _. split; [vm_compute; reflexivity|].
    split; [vm_compute; reflexivity|]. split; [vm_compute; reflexivity|].
    split; [vm_compute; reflexivity|]. reflexivity. }
  destruct H as (w & o & t0 & H1 & H2 & H3 & H4 & H5).
  apply concrete_NoDup in H2.
  exists w, o, t0. split; [repeat split; assumption|].
  exact (terminal_tasks_are_skipped
           order_engine_after_run "order_processing" None w o "validate" t0
           H1 H2 H3 H4 H5).
Defined.
